(** * tempus-challenges: dags/challenge/news.py

    A shallow embedding of the news extraction job: the paged search of
    [NewsApiClient], the readability grade, the CSV writer, the grouping
    by source and the two job functions, followed by theorems about
    them.

    External collaborators (the news API, the readability library, the
    file system and the object store) are the fields of a class; every
    call threads the state of the outside world and may raise.  What a
    run does to the outside is recorded as a trace of events, in order.
    The [while True] loop of the paged search takes fuel.  The calls of
    [logging.info] are left out; the warning of the paged search is an
    event. *)

From Stdlib Require Import List String Ascii Bool Arith Lia Permutation.
From Stdlib Require Import NArith ZArith.
From Stdlib Require Import Floats.SpecFloat.
From Stdlib Require Import DecimalString.
From Stdlib Require DecimalPos.
Import ListNotations.
Local Open Scope string_scope.
Local Open Scope list_scope.

(** ** Python values *)

Module Py.

(** A value that is [None] or a [str]. *)
Definition ostr := option string.

(** Truth value of such a value: [None] and the empty string are falsy. *)
Definition truthy (v : ostr) : bool :=
  match v with
  | None => false
  | Some EmptyString => false
  | Some (String _ _) => true
  end.

(** [len(v)]; the source only evaluates it on a truthy value. *)
Definition len (v : ostr) : nat :=
  match v with
  | None => 0
  | Some s => String.length s
  end.

(** [str(v)], as an f-string or [str.format] renders the value. *)
Definition str (v : ostr) : string :=
  match v with
  | None => "None"
  | Some s => s
  end.

Definition ostr_eqb (a b : ostr) : bool :=
  match a, b with
  | None, None => true
  | Some x, Some y => String.eqb x y
  | _, _ => false
  end.

(** [s.startswith(c)] and [s.endswith(c)] for a one-character [c]. *)
Definition startswith (s : string) (c : ascii) : bool :=
  match s with
  | EmptyString => false
  | String c' _ => Ascii.eqb c' c
  end.

Fixpoint endswith (s : string) (c : ascii) : bool :=
  match s with
  | EmptyString => false
  | String c' EmptyString => Ascii.eqb c' c
  | String _ s' => endswith s' c
  end.

(** [os.path.join(a, b)] of [posixpath]. *)
Definition os_path_join (a b : string) : string :=
  if startswith b "/"%char then b
  else if (String.eqb a EmptyString || endswith a "/"%char)%bool then a ++ b
  else a ++ "/" ++ b.

(** Python floats are IEEE doubles. *)
Definition float := spec_float.

Definition float_zero : float := S754_zero false.

Definition round_half_even (num den : N) : N :=
  let q := (num / den)%N in
  let r := (num mod den)%N in
  if (2 * r <? den)%N then q
  else if (den <? 2 * r)%N then (q + 1)%N
  else if N.even q then q else (q + 1)%N.

(** The magnitude [m * 2^e] in hundredths, rounded to nearest, ties to
    even. *)
Definition hundredths (m : positive) (e : Z) : N :=
  if (0 <=? e)%Z then (Npos m * 2 ^ Z.to_N e * 100)%N
  else round_half_even (Npos m * 100) (2 ^ Z.to_N (- e)).

Definition decimal (n : N) : string :=
  NilZero.string_of_uint (N.to_uint n).

Definition digit (n : N) : ascii :=
  ascii_of_N (48 + n).

Definition sign (s : bool) : string :=
  if s then "-" else EmptyString.

(** ["{0:.2f}".format(x)] on a float. *)
Definition format_2f (x : float) : string :=
  match x with
  | S754_zero s => sign s ++ "0.00"
  | S754_infinity s => sign s ++ "inf"
  | S754_nan => "nan"
  | S754_finite s m e =>
      let h := hundredths m e in
      sign s ++ decimal (h / 100) ++ "."
        ++ String (digit ((h mod 100) / 10))
             (String (digit (h mod 10)) EmptyString)
  end.

Definition is_finite (x : float) : bool :=
  match x with
  | S754_zero _ | S754_finite _ _ _ => true
  | _ => false
  end.

Definition is_digit (c : ascii) : bool :=
  let n := N_of_ascii c in ((48 <=? n) && (n <=? 57))%N%bool.

Fixpoint all_digits (s : string) : bool :=
  match s with
  | EmptyString => true
  | String c s' => is_digit c && all_digits s'
  end.

End Py.

(** ** Data model

    An article is the JSON object of the news API.  The keys the code
    reads with [story[...]] are record fields, a JSON [null] is [None].
    [description] is read with [story.get], which gives [None] for an
    absent key as well as for [null]. *)

Record Source := mkSource {
  id : Py.ostr;
  name : Py.ostr
}.

Record Article := mkArticle {
  source : Source;
  title : Py.ostr;
  publishedAt : Py.ostr;
  url : Py.ostr;
  description : Py.ostr
}.

(** ** Insertion-ordered dictionaries of lists

    [collections.defaultdict(list)]: keys are kept in the order of their
    first insertion. *)

Module Dict.
Section Dict.
Context {V : Type}.

Definition t := list (Py.ostr * list V).

Definition empty : t := [].

(** [d[k].append(v)]: a missing key is created with an empty list at the
    end of the key order, then [v] is appended to the key's list. *)
Fixpoint append (k : Py.ostr) (v : V) (d : t) : t :=
  match d with
  | [] => [(k, [v])]
  | (k', vs) :: d' =>
      if Py.ostr_eqb k k' then (k', vs ++ [v]) :: d'
      else (k', vs) :: append k v d'
  end.

Fixpoint get (k : Py.ostr) (d : t) : option (list V) :=
  match d with
  | [] => None
  | (k', vs) :: d' => if Py.ostr_eqb k k' then Some vs else get k d'
  end.

(** [d[k]] read on a [defaultdict(list)]. *)
Definition getitem (k : Py.ostr) (d : t) : list V :=
  match get k d with
  | Some vs => vs
  | None => []
  end.

(** Iteration order of [for k in d]. *)
Definition keys (d : t) : list Py.ostr := map fst d.

Definition values (d : t) : list (list V) := map snd d.

End Dict.
Arguments t : clear implicits.
End Dict.

(** ** Exceptions, results and observable events *)

Inductive exn :=
| NewsAPIException (code : string)
| OtherException (what : string).

(** [exc.get_code() == "maximumResultsReached"] under
    [except NewsAPIException]. *)
Definition is_maximum_results (e : exn) : bool :=
  match e with
  | NewsAPIException code => String.eqb code "maximumResultsReached"
  | OtherException _ => false
  end.

Inductive result (A : Type) :=
| Ok (a : A)
| Raise (e : exn).
Arguments Ok {A} a.
Arguments Raise {A} e.

(** The keyword arguments of one call of the news API's search methods. *)
Record Request := mkRequest {
  language : Py.ostr;
  q : Py.ostr;
  sources : string;
  page : nat;
  page_size : nat
}.

Inductive event :=
| EvGetSources (lang : Py.ostr)
| EvSearch (top : bool) (req : Request)
| EvWarning (msg : string)
| EvYield (article : Article)
| EvOpenWrite (filepath content : string)
| EvUpload (filepath bucket key : string).

(** Outcome of [readability.getmeasures(text, lang="en")]: the Kincaid
    grade, or the [ValueError] the library raises on a text it cannot
    score. *)
Inductive measures :=
| Kincaid (grade : Py.float)
| ValueError.

(** The readability library. *)
Class Readability := {
  getmeasures : string -> measures
}.

(** The outside world, of state [W]: the news API client (built from an
    API key), the file system and the object store. *)
Class Externals (W : Type) := {
  api_get_sources : string -> Py.ostr -> W -> result (list string) * W;
  api_get_top_headlines : string -> Request -> W -> result (list Article) * W;
  api_get_everything : string -> Request -> W -> result (list Article) * W;
  fs_open_write : string -> string -> W -> result unit * W;
  s3_upload_file : string -> string -> string -> W -> result unit * W
}.

(** ** Effects: world state, exceptions, trace; [None] is fuel run out *)

Definition M (W A : Type) : Type :=
  W -> option (result A * W * list event).

Definition ret {W A} (a : A) : M W A :=
  fun w => Some (Ok a, w, []).

Definition bind {W A B} (m : M W A) (f : A -> M W B) : M W B :=
  fun w =>
    match m w with
    | None => None
    | Some (Raise e, w1, t1) => Some (Raise e, w1, t1)
    | Some (Ok a, w1, t1) =>
        match f a w1 with
        | None => None
        | Some (r, w2, t2) => Some (r, w2, t1 ++ t2)
        end
    end.

Definition emit {W} (ev : event) : M W unit :=
  fun w => Some (Ok tt, w, [ev]).

Definition call {W A} (f : W -> result A * W) : M W A :=
  fun w => let '(r, w') := f w in Some (r, w', []).

Notation "x <- m ;; k" := (bind m (fun x => k))
  (at level 61, m at next level, right associativity).
Notation "m ;;; k" := (bind m (fun _ => k))
  (at level 61, right associativity).

Fixpoint for_each {W A} (l : list A) (body : A -> M W unit) : M W unit :=
  match l with
  | [] => ret tt
  | x :: l' => body x ;;; for_each l' body
  end.

(** ** The news API client *)

Record NewsApiClient := mkClient {
  api_key : string
}.

(** The [**kwargs] of [_paged_search]; an absent key is [None]. *)
Record kwargs := mkKwargs {
  kw_language : Py.ostr;
  kw_query : Py.ostr;
  kw_sources : option (list string)
}.

(** A generator object of [_paged_search]: created and not yet polled
    (its arguments are bound, its body has not run), suspended at
    [yield] inside [for article in articles] with the articles still to
    come, or finished. *)
Inductive generator :=
| GenCreated (self : NewsApiClient) (page_size : nat) (top : bool)
    (kw : kwargs)
| GenSuspended (rest : list Article)
| GenFinished.

(** What one [next(gen)] gives. *)
Inductive polled :=
| Yielded (article : Article)
| StopIteration
| Raised (e : exn).

Section Client.
Context {W : Type} {E : Externals W}.

(** [get_sources]: the ids of the sources the API lists. *)
Definition get_sources (self : NewsApiClient) (language : Py.ostr)
    : M W (list string) :=
  emit (EvGetSources language) ;;;
  sources <- call (api_get_sources (api_key self) language) ;;
  ret (fold_left (fun source_list source => source_list ++ [source])
         sources []).

(** The body of [while True] in [_paged_search]; [fuel] bounds the number
    of iterations. *)
Fixpoint paged_loop (fuel : nat)
    (search_method : Request -> W -> result (list Article) * W)
    (top : bool) (request : nat -> Request)
    (articles : list Article) (current_page : nat) (w : W)
    : option (result (list Article) * W * list event) :=
  match fuel with
  | O => None
  | S fuel' =>
      let ev := EvSearch top (request current_page) in
      match search_method (request current_page) w with
      | (Raise exc, w1) =>
          match exc with
          | NewsAPIException _ =>
              if is_maximum_results exc then
                Some (Ok articles, w1,
                      [ev; EvWarning "Reached maximum query results."])
              else Some (Raise exc, w1, [ev])
          | OtherException _ => Some (Raise exc, w1, [ev])
          end
      | (Ok page, w1) =>
          if negb (Nat.eqb (List.length page) 0) then
            match paged_loop fuel' search_method top request
                    (articles ++ page) (current_page + 1) w1 with
            | None => None
            | Some (r, w2, evs) => Some (r, w2, ev :: evs)
            end
          else Some (Ok articles, w1, [ev])
      end
  end.

(** The request [_paged_search] sends for a page. *)
Definition page_request (page_size : nat) (kw : kwargs) (current_page : nat)
    : Request :=
  let language := kw_language kw in
  let query := kw_query kw in
  let sources := match kw_sources kw with Some l => l | None => [] end in
  let source_string := String.concat "," sources in
  mkRequest language query source_string current_page page_size.

Definition search_method_of (self : NewsApiClient) (top : bool)
    : Request -> W -> result (list Article) * W :=
  if top then api_get_top_headlines (api_key self)
  else api_get_everything (api_key self).

(** [for article in articles: yield article], resumed with [articles]
    still to go. *)
Definition resume (articles : list Article) (w : W) (evs : list event)
    : polled * generator * W * list event :=
  match articles with
  | [] => (StopIteration, GenFinished, w, evs)
  | article :: rest =>
      (Yielded article, GenSuspended rest, w, evs ++ [EvYield article])
  end.

(** One [next(gen)] on a generator of [_paged_search]. *)
Definition gen_next (fuel : nat) (g : generator) (w : W)
    : option (polled * generator * W * list event) :=
  match g with
  | GenCreated self page_size top kw =>
      match paged_loop fuel (search_method_of self top) top
              (page_request page_size kw) [] 1 w with
      | None => None
      | Some (Raise exc, w1, evs) => Some (Raised exc, GenFinished, w1, evs)
      | Some (Ok articles, w1, evs) => Some (resume articles w1 evs)
      end
  | GenSuspended rest => Some (resume rest w [])
  | GenFinished => Some (StopIteration, GenFinished, w, [])
  end.

(** [_paged_search(page_size=100, top=True, **kwargs)]: calling a
    generator function only creates the generator. *)
Definition _paged_search (self : NewsApiClient) (page_size : option nat)
    (top : option bool) (kw : kwargs) : generator :=
  GenCreated self
    (match page_size with Some n => n | None => 100 end)
    (match top with Some b => b | None => true end)
    kw.

(** [top_stories(sources=[], language="en")]. *)
Definition top_stories (self : NewsApiClient) (sources : list string)
    (language : Py.ostr) : generator :=
  _paged_search self None None (mkKwargs language None (Some sources)).

(** [search(query, sources=[], language=None)]. *)
Definition search (self : NewsApiClient) (query : string)
    (sources : list string) (language : Py.ostr) : generator :=
  _paged_search self None (Some false)
    (mkKwargs language (Some query) (Some sources)).

(** A consumer that polls a generator until it stops or raises ([for x
    in gen], [list.extend(gen)]), with at most [polls] polls. *)
Fixpoint iterate (polls fuel : nat) (g : generator) : M W (list Article) :=
  fun w =>
    match polls with
    | O => None
    | S polls' =>
        match gen_next fuel g w with
        | None => None
        | Some (Raised exc, _, w1, evs) => Some (Raise exc, w1, evs)
        | Some (StopIteration, _, w1, evs) => Some (Ok [], w1, evs)
        | Some (Yielded article, g1, w1, evs) =>
            match iterate polls' fuel g1 w1 with
            | None => None
            | Some (Raise exc, w2, evs') => Some (Raise exc, w2, evs ++ evs')
            | Some (Ok l, w2, evs') => Some (Ok (article :: l), w2, evs ++ evs')
            end
        end
    end.

End Client.

(** ** Readability grade *)

Section Grade.
Context {R : Readability}.

(** [story_grade]. *)
Definition story_grade (story : Article) : Py.float :=
  let grade := Py.float_zero in
  let text := description story in
  if Py.truthy text then
    match getmeasures (Py.str text) with
    | Kincaid g => g
    | ValueError => grade
    end
  else grade.

End Grade.

(** ** CSV writer

    [csv.writer(fh).writerow(row)] of the standard library with the
    default dialect: the delimiter is a comma, the quote character the
    double quote, quoting is minimal with the quote character doubled,
    the line terminator is CR LF. *)

Module Csv.

Definition quotechar : ascii := "034"%char.
Definition delimiter : ascii := ","%char.
Definition lineterminator : string :=
  String "013"%char (String "010"%char EmptyString).

Definition special (c : ascii) : bool :=
  (Ascii.eqb c delimiter || Ascii.eqb c quotechar
   || Ascii.eqb c "013"%char || Ascii.eqb c "010"%char)%bool.

Fixpoint needs_quotes (s : string) : bool :=
  match s with
  | EmptyString => false
  | String c s' => special c || needs_quotes s'
  end.

Fixpoint double_quotes (s : string) : string :=
  match s with
  | EmptyString => EmptyString
  | String c s' =>
      if Ascii.eqb c quotechar then String c (String c (double_quotes s'))
      else String c (double_quotes s')
  end.

(** A field as written: [None] is written as the empty string. *)
Definition field (v : Py.ostr) : string :=
  let s := match v with Some s => s | None => EmptyString end in
  if needs_quotes s
  then String quotechar (double_quotes s ++ String quotechar EmptyString)
  else s.

Definition writerow (row : list Py.ostr) : string :=
  let rec := String.concat (String delimiter EmptyString) (map field row) in
  match row, rec with
  | _ :: _, EmptyString =>
      String quotechar (String quotechar lineterminator)
  | _, _ => rec ++ lineterminator
  end.

End Csv.

Section Writer.
Context {R : Readability}.

(** The source column: [story["source"]["id"]], or the name when that is
    [None] or empty. *)
Definition csv_source_id (story : Article) : Py.ostr :=
  let source_id := id (source story) in
  if (negb (Py.truthy source_id) || Nat.eqb (Py.len source_id) 0)%bool
  then name (source story)
  else source_id.

Definition csv_row (story : Article) : list Py.ostr :=
  [ csv_source_id story;
    title story;
    publishedAt story;
    url story;
    Some (Py.format_2f (story_grade story)) ].

(** [write_csv(fh, stories)]; the handle is the text written so far. *)
Definition write_csv (fh : string) (stories : list Article) : string :=
  fold_left (fun fh story => (fh ++ Csv.writerow (csv_row story))%string)
    stories fh.

End Writer.

(** ** Grouping by source *)

(** [stories_by_source] over the stories in arrival order: each one is
    appended under [story["source"]["id"]]. *)
Definition stories_by_source (stories : list Article) : Dict.t Article :=
  fold_left
    (fun by_source story =>
       let source := id (source story) in
       Dict.append source story by_source)
    stories Dict.empty.

(** The Source Identifier of the specification: [source.id] when it is
    non-empty, [source.name] otherwise. *)
Definition source_identifier (story : Article) : Py.ostr :=
  if Py.truthy (id (source story)) then id (source story)
  else name (source story).

(** Grouping as the specification words it: keyed by the resolved Source
    Identifier. *)
Definition group_by_source_spec (stories : list Article) : Dict.t Article :=
  fold_left
    (fun groups story => Dict.append (source_identifier story) story groups)
    stories Dict.empty.

(** First occurrences of the keys of a list, in order. *)
Fixpoint first_occurrences (ks : list Py.ostr) : list Py.ostr :=
  match ks with
  | [] => []
  | k :: ks' =>
      k :: filter (fun k' => negb (Py.ostr_eqb k' k)) (first_occurrences ks')
  end.

(** The stories whose source id is [k], in arrival order. *)
Definition stories_of (k : Py.ostr) (stories : list Article) : list Article :=
  filter (fun s => Py.ostr_eqb (id (source s)) k) stories.

(** [k in ks], decided. *)
Definition mem (k : Py.ostr) (ks : list Py.ostr) : bool :=
  existsb (Py.ostr_eqb k) ks.

(** Grouping under an arbitrary key function: the loop of
    [stories_by_source] with the key left open. *)
Definition group_with (key : Article -> Py.ostr) (stories : list Article)
    : Dict.t Article :=
  fold_left (fun d s => Dict.append (key s) s d) stories Dict.empty.

Definition with_key (key : Article -> Py.ostr) (k : Py.ostr)
    (stories : list Article) : list Article :=
  filter (fun s => Py.ostr_eqb (key s) k) stories.

(** ** The job functions *)

Section Jobs.
Context {W : Type} {E : Externals W} {R : Readability}.

(** [with open(filepath, "w") as fh: write_csv(fh, stories)]. *)
Definition open_write_csv (filepath : string) (stories : list Article)
    : M W unit :=
  let content := write_csv EmptyString stories in
  emit (EvOpenWrite filepath content) ;;;
  call (fs_open_write filepath content).

(** [upload_news]. *)
Definition upload_news (filepath bucket key : string) : M W unit :=
  emit (EvUpload filepath bucket key) ;;;
  call (s3_upload_file filepath bucket key).

Definition headlines_filename (ds : string) : string :=
  ds ++ "_top_headlines.csv".

(** The body of [for source in by_source] in [generate_headlines]. *)
Definition process_source (tmpdir bucket ds : string)
    (by_source : Dict.t Article) (source : Py.ostr) : M W unit :=
  let filename := headlines_filename ds in
  let filepath :=
    Py.os_path_join tmpdir (Py.str source ++ "_" ++ filename) in
  open_write_csv filepath (Dict.getitem source by_source) ;;;
  upload_news filepath bucket (Py.str source ++ "/" ++ filename).

(** [generate_headlines(tmpdir, bucket, apikey, ds=...)].  The loop of
    [stories_by_source] polls the generator; its body has no effect of
    its own, so the stories are polled and then grouped. *)
Definition generate_headlines (fuel : nat) (tmpdir bucket apikey ds : string)
    : M W unit :=
  let client := mkClient apikey in
  sources <- get_sources client (Some "en") ;;
  let stories := top_stories client sources (Some "en") in
  polled_stories <- iterate fuel fuel stories ;;
  let by_source := stories_by_source polled_stories in
  for_each (Dict.keys by_source) (process_source tmpdir bucket ds by_source).

Definition search_filename (ds : string) : string :=
  ds ++ "_combined_search.csv".

(** [for term in terms: all_stories.extend(client.search(query=term))]. *)
Fixpoint search_terms (fuel : nat) (client : NewsApiClient)
    (terms : list string) (all_stories : list Article)
    : M W (list Article) :=
  match terms with
  | [] => ret all_stories
  | term :: terms' =>
      found <- iterate fuel fuel (search client term [] None) ;;
      search_terms fuel client terms' (all_stories ++ found)
  end.

(** [search_news(tmpdir, bucket, terms, apikey, ds=...)]. *)
Definition search_news (fuel : nat) (tmpdir bucket : string)
    (terms : list string) (apikey ds : string) : M W unit :=
  let client := mkClient apikey in
  let filename := search_filename ds in
  let filepath := Py.os_path_join tmpdir filename in
  all_stories <- search_terms fuel client terms [] ;;
  open_write_csv filepath all_stories ;;;
  upload_news filepath bucket filename.

End Jobs.

(** ** Concrete worlds *)

(** A world that replays a script: each search call, whatever the
    endpoint, takes the next scripted response, and an empty page once
    the script is over; uploads fail for the listed keys. *)
Module Scripted.

Record world := mkWorld {
  listed : list string;
  script : list (result (list Article));
  failing : list string;
  written : list (string * string);
  uploaded : list (string * string * string)
}.

Definition next_page (req : Request) (w : world)
    : result (list Article) * world :=
  match script w with
  | [] => (Ok [], w)
  | r :: rest =>
      (r, mkWorld (listed w) rest (failing w) (written w) (uploaded w))
  end.

Definition open_write (filepath content : string) (w : world)
    : result unit * world :=
  (Ok tt,
   mkWorld (listed w) (script w) (failing w)
     (written w ++ [(filepath, content)]) (uploaded w)).

Definition upload_file (filepath bucket key : string) (w : world)
    : result unit * world :=
  if existsb (String.eqb key) (failing w)
  then (Raise (OtherException "S3UploadFailedError"), w)
  else (Ok tt,
        mkWorld (listed w) (script w) (failing w) (written w)
          (uploaded w ++ [(filepath, bucket, key)])).

#[export] Instance externals : Externals world := {
  api_get_sources := fun _ _ w => (Ok (listed w), w);
  api_get_top_headlines := fun _ => next_page;
  api_get_everything := fun _ => next_page;
  fs_open_write := open_write;
  s3_upload_file := upload_file
}.

Definition init (listed : list string)
    (script : list (result (list Article))) (failing : list string)
    : world :=
  mkWorld listed script failing [] [].

End Scripted.

(** The [MockApi] of the unit tests: the first search call returns one
    article, every later one an empty page. *)
Module MockApi.

Definition titled (t : string) : Article :=
  mkArticle (mkSource None None) (Some t) None None None.

Definition get (t : string) (req : Request) (count : nat)
    : result (list Article) * nat :=
  if Nat.eqb count 0 then (Ok [titled t], count + 1)
  else (Ok [], count).

#[export] Instance externals : Externals nat := {
  api_get_sources := fun _ _ w => (Ok [], w);
  api_get_top_headlines := fun _ => get "headlines";
  api_get_everything := fun _ => get "everything";
  fs_open_write := fun _ _ w => (Ok tt, w);
  s3_upload_file := fun _ _ _ w => (Ok tt, w)
}.

End MockApi.

(** A readability library for examples: it cannot score a text without a
    letter or digit in front, and grades every other text 8.79. *)
Module SampleReadability.

Definition grade_8_79 : Py.float :=
  S754_finite false 4948330090573332 (-49).

Definition scorable (text : string) : bool :=
  match text with
  | EmptyString => false
  | String c _ =>
      let n := N_of_ascii c in
      (Py.is_digit c || ((65 <=? n) && (n <=? 90))
       || ((97 <=? n) && (n <=? 122)))%N%bool
  end.

#[export] Instance readability : Readability := {
  getmeasures := fun text => if scorable text then Kincaid grade_8_79
                             else ValueError
}.

End SampleReadability.

(** The lines of a text, one after another. *)
Definition lines (ls : list string) : string :=
  fold_right String.append EmptyString ls.

(** A text of the form [-]digits.dd: an optional sign, at least one
    digit, a point and exactly two digits. *)
Definition two_decimals (s : string) : Prop :=
  exists (sgn int : string) (d1 d2 : ascii),
    s = (sgn ++ int ++ "." ++ String d1 (String d2 EmptyString))%string /\
    (sgn = EmptyString \/ sgn = "-") /\
    int <> EmptyString /\
    Py.all_digits int = true /\
    Py.is_digit d1 = true /\
    Py.is_digit d2 = true.

(** ** Vocabulary of the theorems on the job functions *)

Section Names.
Context {R : Readability}.

(** What processing one source of the headlines leaves in the trace when
    its file is written and uploaded. *)
Definition headlines_events (tmpdir bucket ds : string)
    (stories : list Article) (source : Py.ostr) : list event :=
  [ EvOpenWrite
      (Py.os_path_join tmpdir
         (Py.str source ++ "_" ++ ds ++ "_top_headlines.csv"))
      (write_csv EmptyString (stories_of source stories));
    EvUpload
      (Py.os_path_join tmpdir
         (Py.str source ++ "_" ++ ds ++ "_top_headlines.csv"))
      bucket
      (Py.str source ++ "/" ++ ds ++ "_top_headlines.csv") ].

End Names.

(** Writing a file and uploading it never fail. *)
Definition always_stores (W : Type) {E : Externals W} : Prop :=
  (forall filepath content w,
     fst (fs_open_write filepath content w) = Ok tt) /\
  (forall filepath bucket key w,
     fst (s3_upload_file filepath bucket key w) = Ok tt).

(** ** Sample data *)

Module Sample.

Definition client : NewsApiClient := mkClient "dummykey".

Definition story (source_id : Py.ostr) (t : string) : Article :=
  mkArticle (mkSource source_id (Some "sourcename"))
    (Some t) (Some "now") (Some "url") None.

(** A story whose source has a name and no id. *)
Definition story_without_id : Article := story None "headlines".

Definition first_story : Article := story (Some "foo") "story1".
Definition second_story : Article := story (Some "bar") "story2".

(** The keyword arguments [top_stories(language="en")] passes on. *)
Definition kw_en : kwargs := mkKwargs (Some "en") None (Some []).

(** Two pages of one story each, then empty pages. *)
Definition two_pages : Scripted.world :=
  Scripted.init [] [Ok [first_story]; Ok [second_story]] [].

(** One page, then the maximum of results is signalled. *)
Definition capped : Scripted.world :=
  Scripted.init []
    [Ok [first_story];
     Raise (NewsAPIException "maximumResultsReached")] [].

(** One page, then another API error. *)
Definition failing : Scripted.world :=
  Scripted.init []
    [Ok [first_story]; Raise (NewsAPIException "dummycode")] [].


(** Two sources are listed, the headlines are one story of each, and the
    upload of the first source's file fails. *)
Definition upload_fails : Scripted.world :=
  Scripted.init ["foo"; "bar"] [Ok [first_story; second_story]]
    ["foo/2020-01-01_top_headlines.csv"].

(** The keyword arguments [top_stories(sources=["foo", "bar"])] passes
    on. *)
Definition kw_foo_bar : kwargs :=
  mkKwargs (Some "en") None (Some ["foo"; "bar"]).

End Sample.

(** ** Vocabulary of the theorems on the paged search *)

Section Runs.
Context {W : Type}.
Variable search_method : Request -> W -> result (list Article) * W.
Variable request : nat -> Request.

(** From the world [w], the remote answers the requests for the pages
    [first], [first + 1], ... with the non-empty pages [pages], one
    after another, and is then in the world [w']. *)
Fixpoint serves (w : W) (first : nat) (pages : list (list Article)) (w' : W)
    : Prop :=
  match pages with
  | [] => w' = w
  | p :: ps =>
      p <> [] /\
      exists w1, search_method (request first) w = (Ok p, w1) /\
                 serves w1 (S first) ps w'
  end.

(** The search events of the pages [first], ..., [first + n - 1]. *)
Definition requested (top : bool) (first n : nat) : list event :=
  map (fun i => EvSearch top (request i)) (seq first n).

End Runs.

Definition warning_maximum : event :=
  EvWarning "Reached maximum query results.".

(** ** Vocabulary of the further theorems *)

Section Endings.
Context {W : Type}.
Variable search_method : Request -> W -> result (list Article) * W.
Variable request : nat -> Request.

(** From the world [w1], the request for the page [last] ends the loop
    without an exception: the remote returns an empty page, or raises
    the maximum-results condition, which is logged. *)
Definition stops_after (w1 : W) (last : nat) (w' : W) (log : list event)
    : Prop :=
  (search_method (request last) w1 = (Ok [], w') /\ log = []) \/
  (exists e, search_method (request last) w1 = (Raise e, w') /\
             is_maximum_results e = true /\ log = [warning_maximum]).

End Endings.

(** The text of a CSV field before quoting. *)
Definition csv_content (v : Py.ostr) : string :=
  match v with
  | Some s => s
  | None => EmptyString
  end.

Section Finds.
Context {W : Type} {E : Externals W}.

(** From the world [w], the full-text searches for [terms], one after
    another, each polled to its end, find [founds] and leave the world
    [w'] and the trace [evs]. *)
Fixpoint finds (fuel : nat) (client : NewsApiClient) (terms : list string)
    (w : W) (founds : list (list Article)) (w' : W) (evs : list event)
    : Prop :=
  match terms, founds with
  | [], [] => w' = w /\ evs = []
  | term :: terms', found :: founds' =>
      exists w1 evs1 evs2,
        iterate fuel fuel (search client term [] None) w
          = Some (Ok found, w1, evs1) /\
        finds fuel client terms' w1 founds' w' evs2 /\
        evs = evs1 ++ evs2
  | _, _ => False
  end.

End Finds.

(** A remote that answers every search request with a page of one
    story. *)
Module Endless.

#[export] Instance externals : Externals unit := {
  api_get_sources := fun _ _ w => (Ok [], w);
  api_get_top_headlines := fun _ _ w => (Ok [Sample.first_story], w);
  api_get_everything := fun _ _ w => (Ok [Sample.first_story], w);
  fs_open_write := fun _ _ w => (Ok tt, w);
  s3_upload_file := fun _ _ _ w => (Ok tt, w)
}.

End Endless.

(** The layout of a written row: its items, each quoted or plain, with
    commas between them and the line terminator at the end. *)
Module CsvLayout.

Definition item : Type := (bool * string)%type.

Definition quoted (s : string) : string :=
  String Csv.quotechar
    (Csv.double_quotes s ++ String Csv.quotechar EmptyString).

Definition render_item (i : item) : string :=
  if fst i then quoted (snd i) else snd i.

Fixpoint render (l : list item) : string :=
  match l with
  | [] => Csv.lineterminator
  | [i] => render_item i ++ Csv.lineterminator
  | i :: l' => render_item i ++ "," ++ render l'
  end.

(** A plain item has no character that needs quotes. *)
Definition valid (i : item) : Prop :=
  fst i = false -> Csv.needs_quotes (snd i) = false.

Definition item_of (v : Py.ostr) : item :=
  (Csv.needs_quotes (csv_content v), csv_content v).

(** The items [writerow] writes for a row. *)
Definition items (row : list Py.ostr) : list item :=
  match row with
  | [] => [(false, EmptyString)]
  | [v] =>
      match Csv.field v with
      | EmptyString => [(true, EmptyString)]
      | _ => [item_of v]
      end
  | _ => map item_of row
  end.

(** The text starts with a comma or a carriage return. *)
Definition breaks (t : string) : bool :=
  match t with
  | String c _ => (Ascii.eqb c Csv.delimiter || Ascii.eqb c "013"%char)%bool
  | EmptyString => false
  end.

End CsvLayout.

(** Scripted worlds in which one collaborator is out of order. *)
Module Broken.

(** The API rejects the listing of the sources. *)
Definition no_sources : Externals Scripted.world := {|
  api_get_sources :=
    fun _ _ w => (Raise (NewsAPIException "apiKeyInvalid"), w);
  api_get_top_headlines := fun _ => Scripted.next_page;
  api_get_everything := fun _ => Scripted.next_page;
  fs_open_write := Scripted.open_write;
  s3_upload_file := Scripted.upload_file
|}.

(** No file can be opened for writing. *)
Definition read_only : Externals Scripted.world := {|
  api_get_sources := fun _ _ w => (Ok (Scripted.listed w), w);
  api_get_top_headlines := fun _ => Scripted.next_page;
  api_get_everything := fun _ => Scripted.next_page;
  fs_open_write := fun _ _ w => (Raise (OtherException "OSError"), w);
  s3_upload_file := Scripted.upload_file
|}.

End Broken.

(** ** Vocabulary of the theorems on the written texts and names *)

(** A character that makes the CSV writer quote a field: the comma, the
    double quote, the carriage return or the line feed. *)
Definition csv_special (c : ascii) : Prop :=
  c = ","%char \/ c = "034"%char \/ c = "013"%char \/ c = "010"%char.

(** [h] is the magnitude [m * 2^e] in hundredths, rounded to the nearest
    hundredth, a tie going to the even one. *)
Definition rounds_to (m : positive) (e : Z) (h : N) : Prop :=
  if (0 <=? e)%Z then h = (Npos m * 2 ^ Z.to_N e * 100)%N
  else
    let den := (2 ^ Z.to_N (- e))%N in
    let num := (Npos m * 100)%N in
    (2 * num <= 2 * (h * den) + den)%N /\
    (2 * (h * den) <= 2 * num + den)%N /\
    ((2 * (h * den) + den = 2 * num \/ 2 * (h * den) = 2 * num + den)%N ->
     N.even h = true).

(** The text [s] is the decimal writing of [n], without leading zeros. *)
Definition reads_as (s : string) (n : N) : Prop :=
  NilZero.uint_of_string s = Some (N.to_uint n).

(** The double quote, as a text. *)
Definition dquote : string := String "034"%char EmptyString.

(** A story of the source sourceid whose title has a comma and quotes
    and whose description the sample readability library grades. *)
Definition quoted_story : Article :=
  mkArticle (mkSource (Some "sourceid") (Some "sourcename"))
    (Some ("Hello, " ++ dquote ++ "World" ++ dquote)%string)
    (Some "now") (Some "url") (Some "Sample Description").


Section Stores.
Context {W : Type} {E : Externals W} {R : Readability}.


End Stores.

(** * Theorems *)

(** ** Keys *)

Lemma ostr_eqb_spec (a b : Py.ostr) : reflect (a = b) (Py.ostr_eqb a b).
Proof.
  destruct a as [x|], b as [y|]; simpl; try (constructor; congruence).
  destruct (String.eqb_spec x y); constructor; congruence.
Qed.

Lemma ostr_eqb_refl (a : Py.ostr) : Py.ostr_eqb a a = true.
Proof. destruct (ostr_eqb_spec a a); congruence. Qed.

Lemma ostr_eqb_sym (a b : Py.ostr) : Py.ostr_eqb a b = Py.ostr_eqb b a.
Proof.
  destruct (ostr_eqb_spec a b), (ostr_eqb_spec b a); congruence.
Qed.

Ltac key_cases a b :=
  let Heq := fresh "Heq" in
  destruct (ostr_eqb_spec a b) as [Heq | Heq]; [try subst | ]; simpl.

Lemma mem_In (k : Py.ostr) (ks : list Py.ostr) : mem k ks = true <-> In k ks.
Proof.
  unfold mem. rewrite existsb_exists. split.
  - intros (x & Hx & Hk). key_cases k x; congruence.
  - intros H. exists k. split; [assumption | apply ostr_eqb_refl].
Qed.

Lemma first_occurrences_In (k : Py.ostr) (ks : list Py.ostr) :
  In k (first_occurrences ks) <-> In k ks.
Proof.
  induction ks as [| a ks IH]; simpl; [tauto |].
  rewrite filter_In, IH. key_cases k a; intuition congruence.
Qed.

Lemma first_occurrences_NoDup (ks : list Py.ostr) :
  NoDup (first_occurrences ks).
Proof.
  induction ks as [| a ks IH]; simpl; constructor.
  - rewrite filter_In. intros [_ H]. rewrite ostr_eqb_refl in H. discriminate.
  - now apply NoDup_filter.
Qed.

Lemma first_occurrences_snoc (ks : list Py.ostr) (k : Py.ostr) :
  first_occurrences (ks ++ [k]) =
  if mem k ks then first_occurrences ks else first_occurrences ks ++ [k].
Proof.
  induction ks as [| a ks IH]; simpl; [reflexivity |].
  rewrite IH. key_cases k a.
  - destruct (mem a ks); [reflexivity |].
    rewrite filter_app. simpl. rewrite ostr_eqb_refl. simpl.
    now rewrite app_nil_r.
  - destruct (mem k ks); [reflexivity |].
    rewrite filter_app. simpl.
    key_cases k a; [congruence | reflexivity].
Qed.

(** ** Dictionaries *)

Section DictFacts.
Context {V : Type}.
Implicit Types (d : Dict.t V) (k : Py.ostr) (v : V).

Lemma keys_append k v d :
  Dict.keys (Dict.append k v d) =
  if mem k (Dict.keys d) then Dict.keys d else Dict.keys d ++ [k].
Proof.
  induction d as [| [k' vs] d IH]; simpl; [reflexivity |].
  key_cases k k'; [reflexivity |].
  unfold Dict.keys in *. rewrite IH.
  now destruct (mem k (map fst d)).
Qed.

Lemma get_append k k' v d :
  Dict.get k (Dict.append k' v d) =
  if Py.ostr_eqb k k' then Some (Dict.getitem k d ++ [v]) else Dict.get k d.
Proof.
  unfold Dict.getitem.
  induction d as [| [k0 vs] d IH]; simpl.
  - now destruct (Py.ostr_eqb k k').
  - destruct (ostr_eqb_spec k' k0) as [-> | Hne]; simpl.
    + destruct (Py.ostr_eqb k k0); reflexivity.
    + rewrite IH.
      destruct (ostr_eqb_spec k k0) as [E1 | N1];
        destruct (ostr_eqb_spec k k') as [E2 | N2]; simpl;
        try reflexivity.
      congruence.
Qed.

Lemma get_In k vs d :
  NoDup (Dict.keys d) -> In (k, vs) d -> Dict.get k d = Some vs.
Proof.
  induction d as [| [k0 vs0] d IH]; simpl; [tauto |].
  intros Hnd [Heq | Hin].
  - inversion Heq; subst. now rewrite ostr_eqb_refl.
  - inversion Hnd as [| ? ? Hnotin Hnd']; subst.
    key_cases k k0.
    + exfalso. apply Hnotin. unfold Dict.keys.
      change k0 with (fst (k0, vs)). now apply in_map.
    + now apply IH.
Qed.

Lemma In_get k vs d : Dict.get k d = Some vs -> In (k, vs) d.
Proof.
  induction d as [| [k0 vs0] d IH]; simpl; [discriminate |].
  key_cases k k0.
  - intros H; inversion H; subst. now left.
  - intros H. right. now apply IH.
Qed.

Lemma values_append_perm k v d :
  Permutation (List.concat (Dict.values (Dict.append k v d)))
              (List.concat (Dict.values d) ++ [v]).
Proof.
  induction d as [| [k' vs] d IH]; simpl; [reflexivity |].
  key_cases k k'.
  - rewrite <- !app_assoc. apply Permutation_app_head.
    apply Permutation_app_comm.
  - rewrite <- app_assoc. apply Permutation_app_head. exact IH.
Qed.

End DictFacts.

(** ** Grouping *)

Section Grouping.
Variable key : Article -> Py.ostr.

Lemma group_with_snoc stories s :
  group_with key (stories ++ [s])
  = Dict.append (key s) s (group_with key stories).
Proof. unfold group_with. now rewrite fold_left_app. Qed.

Lemma group_with_keys stories :
  Dict.keys (group_with key stories) = first_occurrences (map key stories).
Proof.
  induction stories as [| s stories IH] using rev_ind; [reflexivity |].
  rewrite group_with_snoc, keys_append, map_app.
  change (map key [s]) with [key s].
  rewrite first_occurrences_snoc, IH.
  assert (Hm : mem (key s) (first_occurrences (map key stories))
               = mem (key s) (map key stories)).
  { apply eq_true_iff_eq. now rewrite !mem_In, first_occurrences_In. }
  now rewrite Hm.
Qed.

Lemma group_with_get stories k :
  Dict.get k (group_with key stories) =
  match with_key key k stories with
  | [] => None
  | g => Some g
  end.
Proof.
  induction stories as [| s stories IH] using rev_ind; [reflexivity |].
  rewrite group_with_snoc, get_append. unfold Dict.getitem. rewrite IH.
  unfold with_key. rewrite filter_app. simpl.
  rewrite (ostr_eqb_sym k (key s)).
  destruct (Py.ostr_eqb (key s) k).
  - destruct (filter _ stories); reflexivity.
  - rewrite app_nil_r. reflexivity.
Qed.

Lemma group_with_perm stories :
  Permutation (List.concat (Dict.values (group_with key stories))) stories.
Proof.
  induction stories as [| s stories IH] using rev_ind; [reflexivity |].
  rewrite group_with_snoc, values_append_perm.
  now apply Permutation_app_tail.
Qed.

End Grouping.

Lemma stories_by_source_group_with stories :
  stories_by_source stories = group_with (fun s => id (source s)) stories.
Proof. reflexivity. Qed.

Lemma length_concat_sum {A} (ls : list (list A)) :
  List.length (List.concat ls) = list_sum (map (@List.length A) ls).
Proof.
  induction ls as [| l ls IH]; simpl; [reflexivity |].
  now rewrite length_app, IH.
Qed.

Lemma stories_of_with_key k stories :
  stories_of k stories = with_key (fun s => id (source s)) k stories.
Proof. reflexivity. Qed.

(** C1, as stated, fails: a story whose source id is null resolves to its
    source name, yet [stories_by_source] files it under the key [None],
    and holds nothing under the resolved Source Identifier. *)
Lemma stories_by_source_ignores_name :
  source_identifier Sample.story_without_id = Some "sourcename" /\
  Dict.get (source_identifier Sample.story_without_id)
    (stories_by_source [Sample.story_without_id]) = None /\
  Dict.get None (stories_by_source [Sample.story_without_id])
    = Some [Sample.story_without_id] /\
  stories_by_source [Sample.story_without_id]
    <> group_by_source_spec [Sample.story_without_id].
Proof. repeat split; try reflexivity. discriminate. Qed.

(** C1, amended: [stories_by_source] keys each article by its source id
    as it is (no fallback to the source name): the keys are the source
    ids in order of first occurrence, the list under a key holds the
    articles of that source id in arrival order, and one more article is
    appended under its source id, whose key is created when it is new. *)
Theorem stories_by_source_keyed_by_id (stories : list Article) :
  Dict.keys (stories_by_source stories)
    = first_occurrences (map (fun s => id (source s)) stories) /\
  (forall k, Dict.get k (stories_by_source stories) =
             match stories_of k stories with
             | [] => None
             | g => Some g
             end) /\
  (forall s, stories_by_source (stories ++ [s])
             = Dict.append (id (source s)) s (stories_by_source stories)).
Proof.
  rewrite stories_by_source_group_with. repeat split.
  - apply group_with_keys.
  - intros k. rewrite stories_of_with_key. apply group_with_get.
  - intros s. apply group_with_snoc.
Qed.

(** C10: [stories_by_source] partitions its input.  No key occurs twice;
    every group is non-empty and is exactly the stories of its key, in
    input order; every input story is in the group of its key and in no
    other; the group sizes add up to the input length; the groups
    concatenated in key order are a permutation of the input. *)
Theorem stories_by_source_partition (stories : list Article) :
  let by_source := stories_by_source stories in
  NoDup (Dict.keys by_source) /\
  (forall k g, In (k, g) by_source -> g <> [] /\ g = stories_of k stories) /\
  (forall s, In s stories ->
     exists g, In (id (source s), g) by_source /\ In s g) /\
  (forall s k g, In (k, g) by_source -> In s g -> k = id (source s)) /\
  list_sum (map (@List.length Article) (Dict.values by_source))
    = List.length stories /\
  Permutation (List.concat (Dict.values by_source)) stories.
Proof.
  intros by_source. subst by_source.
  rewrite stories_by_source_group_with.
  set (key := fun s => id (source s)).
  assert (Hnd : NoDup (Dict.keys (group_with key stories))).
  { rewrite group_with_keys. apply first_occurrences_NoDup. }
  assert (Hgrp : forall k g, In (k, g) (group_with key stories) ->
                   g <> [] /\ g = stories_of k stories).
  { intros k g Hin. apply (get_In _ _ _ Hnd) in Hin.
    rewrite group_with_get in Hin. rewrite stories_of_with_key.
    fold key. destruct (with_key key k stories) eqn:Hw; [discriminate |].
    inversion Hin; subst. split; [discriminate | reflexivity]. }
  split; [exact Hnd |]. split; [exact Hgrp |].
  split; [| split; [| split]].
  - intros s Hs. change (id (source s)) with (key s).
    pose proof (group_with_get key stories (key s)) as Hget.
    assert (Hin : In s (with_key key (key s) stories)).
    { apply filter_In. split; [assumption | apply ostr_eqb_refl]. }
    destruct (with_key key (key s) stories) as [| a l]; [destruct Hin |].
    exists (a :: l). split; [apply In_get; exact Hget | exact Hin].
  - intros s k g Hin Hs. apply Hgrp in Hin as [_ ->].
    apply filter_In in Hs as [_ Hk].
    destruct (ostr_eqb_spec (id (source s)) k); congruence.
  - rewrite <- length_concat_sum.
    apply Permutation_length, group_with_perm.
  - apply group_with_perm.
Qed.

(** The stories of the unit test [test_stories_by_source] are grouped as
    it expects. *)
Lemma stories_by_source_partition_sample :
  [Sample.first_story; Sample.story (Some "foo") "story3"] <> [] /\
  [Sample.first_story; Sample.story (Some "foo") "story3"]
  = stories_of (Some "foo")
      [Sample.first_story; Sample.second_story;
       Sample.story (Some "foo") "story3"].
Proof.
  pose proof (stories_by_source_partition
                [Sample.first_story; Sample.second_story;
                 Sample.story (Some "foo") "story3"]) as (_ & Hgrp & _).
  apply (Hgrp (Some "foo")). simpl. left. reflexivity.
Defined.

(** ** The paged search *)

Section PagedSearch.
Context {W : Type}.
Variable search_method : Request -> W -> result (list Article) * W.
Variable top : bool.
Variable request : nat -> Request.

Lemma paged_loop_empty_page fuel articles cp w w1 :
  search_method (request cp) w = (Ok [], w1) ->
  paged_loop (S fuel) search_method top request articles cp w
  = Some (Ok articles, w1, requested request top cp 1).
Proof. intros H. simpl. now rewrite H. Qed.

Lemma paged_loop_maximum fuel articles cp w w1 e :
  search_method (request cp) w = (Raise e, w1) ->
  is_maximum_results e = true ->
  paged_loop (S fuel) search_method top request articles cp w
  = Some (Ok articles, w1, requested request top cp 1 ++ [warning_maximum]).
Proof.
  intros H Hmax. simpl. rewrite H.
  destruct e; [| discriminate]. now rewrite Hmax.
Qed.

Lemma paged_loop_raises fuel articles cp w w1 e :
  search_method (request cp) w = (Raise e, w1) ->
  is_maximum_results e = false ->
  paged_loop (S fuel) search_method top request articles cp w
  = Some (Raise e, w1, requested request top cp 1).
Proof.
  intros H Hmax. simpl. rewrite H.
  destruct e; [| reflexivity]. now rewrite Hmax.
Qed.

(** The loop walks through the pages the remote serves, accumulating
    them, and goes on from the page after them. *)
Lemma paged_loop_serves pages :
  forall fuel articles cp w w',
    serves search_method request w cp pages w' ->
    paged_loop (List.length pages + fuel) search_method top request
      articles cp w
    = match paged_loop fuel search_method top request
              (articles ++ List.concat pages) (cp + List.length pages) w'
      with
      | None => None
      | Some (r, w2, evs) =>
          Some (r, w2, requested request top cp (List.length pages) ++ evs)
      end.
Proof.
  induction pages as [| p ps IH]; intros fuel articles cp w w' Hs.
  - simpl in *. subst w'. rewrite app_nil_r, Nat.add_0_r.
    destruct (paged_loop fuel _ _ _ _ _ _) as [[[r w2] evs] |]; reflexivity.
  - destruct Hs as (Hp & w1 & Hcall & Hs).
    cbn [List.length Nat.add paged_loop]. rewrite Hcall.
    destruct p as [| a p]; [congruence |].
    cbn [List.length Nat.eqb negb].
    rewrite Nat.add_1_r, (IH fuel _ (S cp) w1 w' Hs).
    cbn [List.concat]. rewrite <- app_assoc.
    replace (cp + S (List.length ps)) with (S cp + List.length ps) by lia.
    destruct (paged_loop fuel _ _ _ _ _ _) as [[[r w2] evs] |]; reflexivity.
Qed.

End PagedSearch.

Section PagedRuns.
Context {W : Type}.
Variable search_method : Request -> W -> result (list Article) * W.
Variable top : bool.
Variable request : nat -> Request.

Lemma requested_snoc first n :
  requested request top first n ++ requested request top (first + n) 1
  = requested request top first (S n).
Proof.
  unfold requested. rewrite (seq_S n first), map_app. reflexivity.
Qed.

Variables (w w1 w2 : W) (pages : list (list Article)).
Hypothesis Hserves : serves search_method request w 1 pages w1.

Lemma paged_loop_split fuel :
  List.length pages < fuel ->
  fuel = List.length pages + S (fuel - S (List.length pages)).
Proof. lia. Qed.

(** The remote serves [pages], then an empty page. *)
Lemma paged_loop_exhausted fuel :
  search_method (request (S (List.length pages))) w1 = (Ok [], w2) ->
  List.length pages < fuel ->
  paged_loop fuel search_method top request [] 1 w
  = Some (Ok (List.concat pages), w2,
          requested request top 1 (S (List.length pages))).
Proof.
  intros Hlast Hfuel. rewrite (paged_loop_split fuel Hfuel).
  rewrite (paged_loop_serves _ _ _ _ _ _ _ _ _ Hserves).
  rewrite (paged_loop_empty_page _ _ _ _ _ _ _ _ Hlast).
  now rewrite requested_snoc.
Qed.

(** The remote serves [pages], then signals the maximum of results. *)
Lemma paged_loop_capped fuel e :
  search_method (request (S (List.length pages))) w1 = (Raise e, w2) ->
  is_maximum_results e = true ->
  List.length pages < fuel ->
  paged_loop fuel search_method top request [] 1 w
  = Some (Ok (List.concat pages), w2,
          requested request top 1 (S (List.length pages))
            ++ [warning_maximum]).
Proof.
  intros Hlast Hmax Hfuel. rewrite (paged_loop_split fuel Hfuel).
  rewrite (paged_loop_serves _ _ _ _ _ _ _ _ _ Hserves).
  rewrite (paged_loop_maximum _ _ _ _ _ _ _ _ _ Hlast Hmax).
  now rewrite app_assoc, requested_snoc.
Qed.

(** The remote serves [pages], then fails otherwise. *)
Lemma paged_loop_failed fuel e :
  search_method (request (S (List.length pages))) w1 = (Raise e, w2) ->
  is_maximum_results e = false ->
  List.length pages < fuel ->
  paged_loop fuel search_method top request [] 1 w
  = Some (Raise e, w2, requested request top 1 (S (List.length pages))).
Proof.
  intros Hlast Hmax Hfuel. rewrite (paged_loop_split fuel Hfuel).
  rewrite (paged_loop_serves _ _ _ _ _ _ _ _ _ Hserves).
  rewrite (paged_loop_raises _ _ _ _ _ _ _ _ _ Hlast Hmax).
  now rewrite requested_snoc.
Qed.

End PagedRuns.

(** ** The generator *)

Section Generator.
Context {W : Type} {E : Externals W}.

Lemma iterate_suspended rest :
  forall polls fuel (w : W),
    List.length rest < polls ->
    iterate polls fuel (GenSuspended rest) w
    = Some (Ok rest, w, map EvYield rest).
Proof.
  induction rest as [| a rest IH]; intros [| polls] fuel w Hp;
    simpl in Hp; try lia.
  - reflexivity.
  - cbn [iterate gen_next resume].
    rewrite IH by lia. reflexivity.
Qed.

Lemma iterate_created_ok self page_size top kw polls fuel (w w1 : W)
    articles evs :
  paged_loop fuel (search_method_of self top) top
    (page_request page_size kw) [] 1 w = Some (Ok articles, w1, evs) ->
  List.length articles < polls ->
  iterate polls fuel (GenCreated self page_size top kw) w
  = Some (Ok articles, w1, evs ++ map EvYield articles).
Proof.
  intros Hloop Hp. destruct polls as [| polls]; [lia |].
  cbn [iterate gen_next]. rewrite Hloop.
  destruct articles as [| a rest]; cbn [resume].
  - now rewrite app_nil_r.
  - simpl in Hp. rewrite iterate_suspended by lia.
    now rewrite <- app_assoc.
Qed.

Lemma iterate_created_raise self page_size top kw polls fuel (w w1 : W)
    e evs :
  paged_loop fuel (search_method_of self top) top
    (page_request page_size kw) [] 1 w = Some (Raise e, w1, evs) ->
  0 < polls ->
  iterate polls fuel (GenCreated self page_size top kw) w
  = Some (Raise e, w1, evs).
Proof.
  intros Hloop Hp. destruct polls as [| polls]; [lia |].
  cbn [iterate gen_next]. now rewrite Hloop.
Qed.

End Generator.

(** [top_stories] and [search] are paged searches. *)
Lemma top_stories_paged self sources language :
  top_stories self sources language
  = _paged_search self (Some 100) (Some true)
      (mkKwargs language None (Some sources)).
Proof. reflexivity. Qed.

Lemma search_paged self query sources language :
  search self query sources language
  = _paged_search self (Some 100) (Some false)
      (mkKwargs language (Some query) (Some sources)).
Proof. reflexivity. Qed.

(** ** Claims on the paged search *)

(** C7: when the remote returns one non-empty page and then an empty
    page, polling the paged search to its end yields exactly the
    articles of that page, in the order returned, and stops normally
    after the two requests. *)
Theorem paged_search_one_page {W : Type} {E : Externals W}
    (self : NewsApiClient) (page_size : nat) (top : bool) (kw : kwargs)
    (w w1 w2 : W) (page : list Article) (polls fuel : nat) :
  page <> [] ->
  search_method_of self top (page_request page_size kw 1) w = (Ok page, w1) ->
  search_method_of self top (page_request page_size kw 2) w1 = (Ok [], w2) ->
  2 <= fuel ->
  List.length page < polls ->
  iterate polls fuel (_paged_search self (Some page_size) (Some top) kw) w
  = Some (Ok page, w2,
          requested (page_request page_size kw) top 1 2 ++ map EvYield page).
Proof.
  intros Hne H1 H2 Hfuel Hpolls.
  assert (Hs : serves (search_method_of self top) (page_request page_size kw)
                 w 1 [page] w1).
  { simpl. split; [assumption |]. exists w1.
    split; [assumption | reflexivity]. }
  pose proof (paged_loop_exhausted _ top _ _ _ w2 _ Hs fuel H2) as Hloop.
  simpl in Hloop. rewrite app_nil_r in Hloop.
  apply iterate_created_ok; [apply Hloop; lia | assumption].
Qed.

(** The unit test [test_top_headlines] is an instance. *)
Lemma paged_search_one_page_mock :
  iterate (E := MockApi.externals) 2 2
    (_paged_search Sample.client (Some 100) (Some true) Sample.kw_en) 0
  = Some (Ok [MockApi.titled "headlines"], 1,
          requested (page_request 100 Sample.kw_en) true 1 2
            ++ map EvYield [MockApi.titled "headlines"]).
Proof.
  apply (paged_search_one_page (E := MockApi.externals)
           Sample.client 100 true Sample.kw_en 0 1 1);
    [discriminate | reflexivity | reflexivity | lia | simpl; lia].
Defined.

(** C4: when the remote, after serving some pages (none when the first
    call does so), raises the maximum-results condition, the paged
    search logs a warning and does not raise: polled to its end it
    yields exactly the articles of the earlier pages and stops
    normally. *)
Theorem paged_search_maximum_results {W : Type} {E : Externals W}
    (self : NewsApiClient) (page_size : nat) (top : bool) (kw : kwargs)
    (w w1 w2 : W) (pages : list (list Article)) (e : exn)
    (polls fuel : nat) :
  serves (search_method_of self top) (page_request page_size kw)
    w 1 pages w1 ->
  search_method_of self top
    (page_request page_size kw (S (List.length pages))) w1 = (Raise e, w2) ->
  is_maximum_results e = true ->
  List.length pages < fuel ->
  List.length (List.concat pages) < polls ->
  iterate polls fuel (_paged_search self (Some page_size) (Some top) kw) w
  = Some (Ok (List.concat pages), w2,
          (requested (page_request page_size kw) top 1
             (S (List.length pages)) ++ [warning_maximum])
            ++ map EvYield (List.concat pages)).
Proof.
  intros Hs Hlast Hmax Hfuel Hpolls.
  apply iterate_created_ok; [| assumption].
  now apply (paged_loop_capped _ top _ _ _ w2 _ Hs fuel e).
Qed.

Lemma paged_search_maximum_results_sample :
  iterate (E := Scripted.externals) 2 2
    (_paged_search Sample.client (Some 100) (Some true) Sample.kw_en)
    Sample.capped
  = Some (Ok [Sample.first_story], Scripted.init [] [] [],
          (requested (page_request 100 Sample.kw_en) true 1 2
             ++ [warning_maximum])
            ++ map EvYield [Sample.first_story]).
Proof.
  apply (paged_search_maximum_results (E := Scripted.externals)
           Sample.client 100 true Sample.kw_en Sample.capped
           (Scripted.init [] [Raise (NewsAPIException "maximumResultsReached")]
              [])
           (Scripted.init [] [] []) [[Sample.first_story]]
           (NewsAPIException "maximumResultsReached")).
  - simpl. split; [discriminate |]. eexists. split; reflexivity.
  - reflexivity.
  - reflexivity.
  - simpl; lia.
  - simpl; lia.
Defined.

(** C5: when the remote, after serving some pages (none when the first
    call does so), raises anything but the maximum-results condition,
    the first poll of the paged search raises that same exception, and
    so does whoever polls the sequence. *)
Theorem paged_search_propagates {W : Type} {E : Externals W}
    (self : NewsApiClient) (page_size : nat) (top : bool) (kw : kwargs)
    (w w1 w2 : W) (pages : list (list Article)) (e : exn) (fuel : nat) :
  serves (search_method_of self top) (page_request page_size kw)
    w 1 pages w1 ->
  search_method_of self top
    (page_request page_size kw (S (List.length pages))) w1 = (Raise e, w2) ->
  is_maximum_results e = false ->
  List.length pages < fuel ->
  gen_next fuel (_paged_search self (Some page_size) (Some top) kw) w
  = Some (Raised e, GenFinished, w2,
          requested (page_request page_size kw) top 1
            (S (List.length pages))) /\
  forall polls, 0 < polls ->
    iterate polls fuel (_paged_search self (Some page_size) (Some top) kw) w
    = Some (Raise e, w2,
            requested (page_request page_size kw) top 1
              (S (List.length pages))).
Proof.
  intros Hs Hlast Hmax Hfuel.
  pose proof (paged_loop_failed _ top _ _ _ w2 _ Hs fuel e Hlast Hmax Hfuel)
    as Hloop.
  split.
  - cbn [_paged_search gen_next]. now rewrite Hloop.
  - intros polls Hp. now apply iterate_created_raise.
Qed.

Lemma paged_search_propagates_sample :
  gen_next (E := Scripted.externals) 2
    (_paged_search Sample.client (Some 100) (Some true) Sample.kw_en)
    Sample.failing
  = Some (Raised (NewsAPIException "dummycode"), GenFinished,
          Scripted.init [] [] [],
          requested (page_request 100 Sample.kw_en) true 1 2).
Proof.
  apply (paged_search_propagates (E := Scripted.externals)
           Sample.client 100 true Sample.kw_en Sample.failing
           (Scripted.init [] [Raise (NewsAPIException "dummycode")] [])
           (Scripted.init [] [] []) [[Sample.first_story]]
           (NewsAPIException "dummycode") 2).
  - simpl. split; [discriminate |]. eexists. split; reflexivity.
  - reflexivity.
  - reflexivity.
  - simpl; lia.
Defined.

(** C3, as stated, fails: with two pages of one story each, the first
    poll requests the pages 1, 2 and 3 before it yields the story of
    page 1; page 2 is requested while no result of page 1 has been
    consumed. *)
Lemma paged_search_requests_ahead :
  gen_next (E := Scripted.externals) 3
    (top_stories Sample.client [] (Some "en")) Sample.two_pages
  = Some (Yielded Sample.first_story,
          GenSuspended [Sample.second_story],
          Scripted.init [] [] [],
          [EvSearch true (page_request 100 Sample.kw_en 1);
           EvSearch true (page_request 100 Sample.kw_en 2);
           EvSearch true (page_request 100 Sample.kw_en 3);
           EvYield Sample.first_story]).
Proof. reflexivity. Qed.

(** C3, amended: the paged search requests all pages when it is first
    polled, one after another (the request for a page is sent from the
    world the previous response left), before it yields any article:
    when the remote serves the pages [pages] and then an empty page, the
    first poll sends the requests for the pages 1 to [length pages + 1]
    and then yields the first article; every later poll yields the next
    buffered article and sends no request; polled to its end, the
    sequence is all the requests followed by all the articles in the
    order returned. *)
Theorem paged_search_fetches_then_yields {W : Type} {E : Externals W}
    (self : NewsApiClient) (page_size : nat) (top : bool) (kw : kwargs)
    (w w1 w2 : W) (pages : list (list Article)) (fuel : nat) :
  serves (search_method_of self top) (page_request page_size kw)
    w 1 pages w1 ->
  search_method_of self top
    (page_request page_size kw (S (List.length pages))) w1 = (Ok [], w2) ->
  List.length pages < fuel ->
  gen_next fuel (_paged_search self (Some page_size) (Some top) kw) w
  = Some (resume (List.concat pages) w2
            (requested (page_request page_size kw) top 1
               (S (List.length pages)))) /\
  (forall rest fuel' (w' : W),
     gen_next fuel' (GenSuspended rest) w'
     = Some (match rest with
             | [] => (StopIteration, GenFinished, w', [])
             | article :: rest' =>
                 (Yielded article, GenSuspended rest', w', [EvYield article])
             end)) /\
  (forall polls, List.length (List.concat pages) < polls ->
     iterate polls fuel
       (_paged_search self (Some page_size) (Some top) kw) w
     = Some (Ok (List.concat pages), w2,
             requested (page_request page_size kw) top 1
               (S (List.length pages))
               ++ map EvYield (List.concat pages))).
Proof.
  intros Hs Hlast Hfuel.
  pose proof (paged_loop_exhausted _ top _ _ _ w2 _ Hs fuel Hlast Hfuel)
    as Hloop.
  split; [| split].
  - cbn [_paged_search gen_next]. now rewrite Hloop.
  - intros [| article rest'] fuel' w'; reflexivity.
  - intros polls Hp. now apply iterate_created_ok.
Qed.

Lemma paged_search_fetches_then_yields_sample :
  iterate (E := Scripted.externals) 3 3
    (_paged_search Sample.client (Some 100) (Some true) Sample.kw_en)
    Sample.two_pages
  = Some (Ok [Sample.first_story; Sample.second_story],
          Scripted.init [] [] [],
          requested (page_request 100 Sample.kw_en) true 1 3
            ++ map EvYield [Sample.first_story; Sample.second_story]).
Proof.
  apply (paged_search_fetches_then_yields (E := Scripted.externals)
           Sample.client 100 true Sample.kw_en Sample.two_pages
           (Scripted.init [] [] []) (Scripted.init [] [] [])
           [[Sample.first_story]; [Sample.second_story]] 3).
  - simpl. split; [discriminate |]. eexists. split; [reflexivity |].
    split; [discriminate |]. eexists. split; reflexivity.
  - reflexivity.
  - simpl; lia.
  - simpl; lia.
Defined.

(** ** Readability grade *)

(** C8: the grade of a story whose description is absent or empty, or
    whose description the readability library cannot score (it raises
    [ValueError]), is [0.0]; [story_grade] does not raise, and the grade
    is written as 0.00. *)
Theorem story_grade_degrades {R : Readability} (story : Article) :
  description story = None \/
  description story = Some EmptyString \/
  (exists text, description story = Some text /\
                getmeasures text = ValueError) ->
  story_grade story = Py.float_zero /\
  Py.format_2f (story_grade story) = "0.00".
Proof.
  intros H.
  assert (Hz : story_grade story = Py.float_zero).
  { unfold story_grade.
    destruct H as [H | [H | (text & H & Hval)]]; rewrite H; simpl;
      try reflexivity.
    destruct text; [reflexivity |]. now rewrite Hval. }
  rewrite Hz. split; reflexivity.
Qed.

(** The unit test's unscorable description. *)
Lemma story_grade_degrades_sample :
  story_grade (R := SampleReadability.readability)
    (mkArticle (mkSource None None) None None None (Some "..."))
  = Py.float_zero /\
  Py.format_2f
    (story_grade (R := SampleReadability.readability)
       (mkArticle (mkSource None None) None None None (Some "...")))
  = "0.00".
Proof.
  apply (story_grade_degrades (R := SampleReadability.readability)).
  right. right. exists "...". split; reflexivity.
Defined.

(** ** CSV writer *)

Lemma append_assoc (a b c : string) :
  ((a ++ b) ++ c = a ++ (b ++ c))%string.
Proof. induction a as [| x a IH]; simpl; [reflexivity | now rewrite IH]. Qed.

Lemma append_nil_r (a : string) : (a ++ EmptyString)%string = a.
Proof. induction a as [| x a IH]; simpl; [reflexivity | now rewrite IH]. Qed.

Lemma fold_left_append (f : Article -> string) stories :
  forall fh,
    fold_left (fun fh story => (fh ++ f story)%string) stories fh
    = (fh ++ lines (map f stories))%string.
Proof.
  induction stories as [| s stories IH]; intros fh; simpl.
  - now rewrite append_nil_r.
  - now rewrite IH, append_assoc.
Qed.

(** The source column of the writer is the Source Identifier. *)
Lemma csv_source_id_identifier (story : Article) :
  csv_source_id story = source_identifier story.
Proof.
  unfold csv_source_id, source_identifier.
  destruct (id (source story)) as [[| c s] |]; reflexivity.
Qed.

Lemma append_not_empty (a b : string) :
  b <> EmptyString -> (a ++ b)%string <> EmptyString.
Proof. destruct a; simpl; [tauto | discriminate]. Qed.

(** A row of five fields is its fields between commas and the line
    terminator. *)
Lemma writerow_five (a b c d e : Py.ostr) :
  Csv.writerow [a; b; c; d; e]
  = (Csv.field a ++ "," ++ Csv.field b ++ "," ++ Csv.field c ++ ","
       ++ Csv.field d ++ "," ++ Csv.field e ++ Csv.lineterminator)%string.
Proof.
  unfold Csv.writerow. cbn [map String.concat].
  change (String Csv.delimiter EmptyString) with ",".
  destruct (Csv.field a ++ "," ++ Csv.field b ++ "," ++ Csv.field c ++ ","
              ++ Csv.field d ++ "," ++ Csv.field e)%string eqn:Hrec.
  - exfalso. revert Hrec. apply append_not_empty. discriminate.
  - rewrite <- Hrec. now rewrite !append_assoc.
Qed.

Lemma all_digits_uint (d : Decimal.uint) :
  Py.all_digits (NilEmpty.string_of_uint d) = true.
Proof. induction d; simpl; auto. Qed.

Lemma decimal_digits (n : N) :
  Py.all_digits (Py.decimal n) = true /\ Py.decimal n <> EmptyString.
Proof.
  unfold Py.decimal, NilZero.string_of_uint.
  destruct (N.to_uint n) eqn:Hd; try (split; [| discriminate]);
    try reflexivity; rewrite <- Hd; simpl; apply all_digits_uint.
Qed.

Lemma is_digit_digit (k : N) : (k < 10)%N -> Py.is_digit (Py.digit k) = true.
Proof.
  intros Hk. unfold Py.is_digit, Py.digit.
  rewrite N_ascii_embedding by lia.
  apply andb_true_intro. split; apply N.leb_le; lia.
Qed.

Lemma is_digit_not_special (c : ascii) :
  Py.is_digit c = true -> Csv.special c = false.
Proof.
  destruct c as [[] [] [] [] [] [] [] []]; try reflexivity; discriminate.
Qed.

Lemma needs_quotes_app (a b : string) :
  Csv.needs_quotes (a ++ b) = (Csv.needs_quotes a || Csv.needs_quotes b)%bool.
Proof.
  induction a as [| c a IH]; simpl; [reflexivity |].
  now rewrite IH, orb_assoc.
Qed.

Lemma needs_quotes_digits (s : string) :
  Py.all_digits s = true -> Csv.needs_quotes s = false.
Proof.
  induction s as [| c s IH]; simpl; [reflexivity |].
  intros H. apply andb_prop in H as [Hc Hs].
  now rewrite (is_digit_not_special c Hc), IH.
Qed.

Lemma format_2f_two_decimals (x : Py.float) :
  Py.is_finite x = true -> two_decimals (Py.format_2f x).
Proof.
  destruct x as [s | s | | s m e]; simpl; try discriminate; intros _.
  - exists (Py.sign s), "0", "0"%char, "0"%char.
    repeat split; try reflexivity; try discriminate.
    destruct s; [now right | now left].
  - set (h := Py.hundredths m e).
    exists (Py.sign s), (Py.decimal (h / 100)),
      (Py.digit ((h mod 100) / 10)), (Py.digit (h mod 10)).
    pose proof (decimal_digits (h / 100)) as [Hd Hne].
    split; [reflexivity |]. split; [destruct s; [now right | now left] |].
    split; [exact Hne |]. split; [exact Hd |].
    split; apply is_digit_digit.
    + apply N.Div0.div_lt_upper_bound.
      pose proof (N.mod_lt h 100). lia.
    + apply N.mod_lt. lia.
Qed.

(** The grade column is never quoted. *)
Lemma field_format_2f (x : Py.float) :
  Csv.field (Some (Py.format_2f x)) = Py.format_2f x.
Proof.
  unfold Csv.field.
  assert (H : Csv.needs_quotes (Py.format_2f x) = false);
    [| now rewrite H].
  destruct x as [s | s | | s m e]; simpl; try (now destruct s);
    try reflexivity.
  set (h := Py.hundredths m e).
  pose proof (decimal_digits (h / 100)) as [Hd _].
  rewrite !needs_quotes_app, (needs_quotes_digits _ Hd). simpl.
  rewrite (is_digit_not_special (Py.digit ((h mod 100) / 10))),
          (is_digit_not_special (Py.digit (h mod 10))).
  - now destruct s.
  - apply is_digit_digit, N.mod_lt. lia.
  - apply is_digit_digit, N.Div0.div_lt_upper_bound.
    pose proof (N.mod_lt h 100). lia.
Qed.

Lemma special_iff (c : ascii) : Csv.special c = true <-> csv_special c.
Proof.
  unfold Csv.special, Csv.delimiter, Csv.quotechar, csv_special.
  destruct (Ascii.eqb_spec c ","%char);
    destruct (Ascii.eqb_spec c "034"%char);
    destruct (Ascii.eqb_spec c "013"%char);
    destruct (Ascii.eqb_spec c "010"%char); simpl; split; intros H; auto;
    try discriminate; destruct H as [H | [H | [H | H]]]; congruence.
Qed.

Lemma needs_quotes_iff (s : string) :
  Csv.needs_quotes s = true <->
  exists c, In c (list_ascii_of_string s) /\ csv_special c.
Proof.
  induction s as [| a s IH]; simpl.
  - split; [discriminate | intros (c & [] & _)].
  - rewrite orb_true_iff, IH, special_iff. split.
    + intros [H | (c & Hin & Hc)]; [exists a | exists c]; auto.
    + intros (c & [<- | Hin] & Hc); [now left | right; now exists c].
Qed.

Lemma double_quotes_flat_map (s : string) :
  Csv.double_quotes s
  = string_of_list_ascii
      (flat_map (fun c => if Ascii.eqb c "034"%char then [c; c] else [c])
         (list_ascii_of_string s)).
Proof.
  induction s as [| a s IH]; simpl; [reflexivity |].
  unfold Csv.quotechar. rewrite IH.
  now destruct (Ascii.eqb a "034"%char).
Qed.

Lemma round_half_even_spec (num den : N) :
  den <> 0%N ->
  let h := Py.round_half_even num den in
  (2 * num <= 2 * (h * den) + den)%N /\
  (2 * (h * den) <= 2 * num + den)%N /\
  ((2 * (h * den) + den = 2 * num \/ 2 * (h * den) = 2 * num + den)%N ->
   N.even h = true).
Proof.
  intros Hden h. subst h. unfold Py.round_half_even.
  pose proof (N.div_mod num den Hden) as Hdm.
  pose proof (N.mod_lt num den Hden) as Hlt.
  set (q := (num / den)%N) in *. set (r := (num mod den)%N) in *.
  assert (Hmul : (den * q = q * den)%N) by apply N.mul_comm.
  assert (Hsucc : ((q + 1) * den = q * den + den)%N) by lia.
  destruct (N.ltb_spec (2 * r) den) as [H1 | H1].
  - split; [lia | split; [lia |]]. intros [H | H]; lia.
  - destruct (N.ltb_spec den (2 * r)) as [H2 | H2].
    + rewrite Hsucc. split; [lia | split; [lia |]]. intros [H | H]; lia.
    + destruct (N.even q) eqn:Hev.
      * split; [lia | split; [lia |]]. intros _. exact Hev.
      * rewrite Hsucc. split; [lia | split; [lia |]]. intros _.
        rewrite N.add_1_r, N.even_succ, <- N.negb_even, Hev. reflexivity.
Qed.

Lemma hundredths_rounds (m : positive) (e : Z) :
  rounds_to m e (Py.hundredths m e).
Proof.
  unfold rounds_to, Py.hundredths.
  destruct (0 <=? e)%Z; [reflexivity |].
  apply round_half_even_spec. apply N.pow_nonzero. discriminate.
Qed.

Lemma decimal_reads (n : N) : reads_as (Py.decimal n) n.
Proof.
  unfold reads_as, Py.decimal. apply NilZero.usu.
  destruct n as [| p]; [discriminate |].
  apply Stdlib.Numbers.DecimalPos.Unsigned.to_uint_nonnil.
Qed.

Lemma digit_code (k : N) : (k < 10)%N -> N_of_ascii (Py.digit k) = (48 + k)%N.
Proof. intros Hk. unfold Py.digit. apply N_ascii_embedding. lia. Qed.

(** C6: [write_csv] appends to the handle one row per article, in order,
    and nothing else (no header); a row is the source identifier, the
    title, [publishedAt], the url and the grade between commas, ended by
    carriage return and line feed.  The source column is the name when
    the id is null or empty and the id otherwise.  A field is written as
    it is (a null as nothing) unless it has a comma, a double quote, a
    carriage return or a line feed, and then between double quotes with
    its double quotes doubled.  The grade is the library's grade of a
    non-empty description it can score; a finite grade is written as its
    sign, its value rounded to the nearest hundredth (ties to even) in
    decimal and exactly two decimals.  The examples of the unit tests
    give the lines stated, and so does a story with a title to quote and
    the grade 8.79. *)
Theorem write_csv_rows {R : Readability} :
  (forall fh stories,
     write_csv fh stories
     = (fh ++ lines (map (fun story =>
          Csv.field (source_identifier story) ++ ","
          ++ Csv.field (title story) ++ ","
          ++ Csv.field (publishedAt story) ++ ","
          ++ Csv.field (url story) ++ ","
          ++ Py.format_2f (story_grade story)
          ++ String "013"%char (String "010"%char EmptyString))
          stories))%string) /\
  (forall fh, write_csv fh [] = fh) /\
  (forall story,
     id (source story) = None \/ id (source story) = Some EmptyString ->
     csv_source_id story = name (source story)) /\
  (forall story c s,
     id (source story) = Some (String c s) ->
     csv_source_id story = id (source story)) /\
  (Csv.field None = EmptyString /\
   (forall s,
      (forall c, In c (list_ascii_of_string s) -> ~ csv_special c) ->
      Csv.field (Some s) = s) /\
   (forall s,
      (exists c, In c (list_ascii_of_string s) /\ csv_special c) ->
      Csv.field (Some s)
      = String "034"%char
          (string_of_list_ascii
             (flat_map
                (fun c => if Ascii.eqb c "034"%char then [c; c] else [c])
                (list_ascii_of_string s))
           ++ String "034"%char EmptyString))) /\
  (forall story c text g,
     description story = Some (String c text) ->
     getmeasures (String c text) = Kincaid g ->
     story_grade story = g) /\
  (forall (s : bool) m e,
     exists h int d1 d2,
       Py.format_2f (S754_finite s m e)
       = ((if s then "-" else EmptyString) ++ int ++ "."
          ++ String d1 (String d2 EmptyString))%string /\
       rounds_to m e h /\
       reads_as int (h / 100) /\
       N_of_ascii d1 = (48 + (h mod 100) / 10)%N /\
       N_of_ascii d2 = (48 + h mod 10)%N) /\
  (forall s : bool,
     Py.format_2f (S754_zero s) = (if s then "-0.00" else "0.00") /\
     Py.format_2f (S754_infinity s) = (if s then "-inf" else "inf")) /\
  (forall story,
     Py.is_finite (story_grade story) = true ->
     two_decimals (Py.format_2f (story_grade story))) /\
  (Py.format_2f (S754_finite false 1 (-3)) = "0.12" /\
   Py.format_2f (S754_finite false 3 (-3)) = "0.38" /\
   Py.format_2f (S754_finite true 5 (-1)) = "-2.50" /\
   Py.format_2f (S754_finite false 1234567 0) = "1234567.00" /\
   Py.format_2f SampleReadability.grade_8_79 = "8.79") /\
  write_csv EmptyString [Sample.story (Some "sourceid") "headlines"]
    = ("sourceid,headlines,now,url,0.00"
       ++ String "013"%char (String "010"%char EmptyString))%string /\
  write_csv EmptyString [Sample.story None "headlines"]
    = ("sourcename,headlines,now,url,0.00"
       ++ String "013"%char (String "010"%char EmptyString))%string /\
  write_csv (R := SampleReadability.readability) EmptyString [quoted_story]
    = ("sourceid," ++ dquote ++ "Hello, " ++ dquote ++ dquote ++ "World"
       ++ dquote ++ dquote ++ dquote ++ ",now,url,8.79"
       ++ String "013"%char (String "010"%char EmptyString))%string.
Proof.
  split; [| split; [| split; [| split; [| split; [| split; [| split;
    [| split; [| split; [| split; [| split; [| split]]]]]]]]]]].
  - intros fh stories. unfold write_csv. rewrite fold_left_append.
    f_equal. f_equal. apply map_ext. intros story.
    unfold csv_row. rewrite writerow_five, field_format_2f.
    now rewrite csv_source_id_identifier.
  - reflexivity.
  - intros story [H | H]; unfold csv_source_id; now rewrite H.
  - intros story c s H. unfold csv_source_id. now rewrite H.
  - split; [reflexivity | split].
    + intros s Hplain. unfold Csv.field.
      destruct (Csv.needs_quotes s) eqn:Hq; [| reflexivity].
      apply needs_quotes_iff in Hq as (c & Hin & Hc).
      now destruct (Hplain c Hin).
    + intros s Hspecial. unfold Csv.field.
      apply needs_quotes_iff in Hspecial. rewrite Hspecial.
      unfold Csv.quotechar. now rewrite double_quotes_flat_map.
  - intros story c text g Hd Hg. unfold story_grade. rewrite Hd.
    cbn [Py.truthy Py.str]. now rewrite Hg.
  - intros s m e. set (h := Py.hundredths m e).
    exists h, (Py.decimal (h / 100)), (Py.digit ((h mod 100) / 10)),
      (Py.digit (h mod 10)).
    split; [now destruct s |]. split; [apply hundredths_rounds |].
    split; [apply decimal_reads |].
    split; apply digit_code.
    + apply N.Div0.div_lt_upper_bound.
      pose proof (N.mod_lt h 100). lia.
    + apply N.mod_lt. lia.
  - intros s. now destruct s.
  - intros story. apply format_2f_two_decimals.
  - repeat split; reflexivity.
  - reflexivity.
  - reflexivity.
  - reflexivity.
Qed.

Lemma write_csv_rows_sample :
  csv_source_id (Sample.story None "headlines") = Some "sourcename" /\
  csv_source_id (Sample.story (Some "sourceid") "headlines")
    = Some "sourceid" /\
  Csv.field (Some "headlines") = "headlines" /\
  Csv.field (Some "a,b") = (dquote ++ "a,b" ++ dquote)%string /\
  story_grade (R := SampleReadability.readability) quoted_story
    = SampleReadability.grade_8_79 /\
  two_decimals
    (Py.format_2f
       (story_grade (R := SampleReadability.readability) quoted_story)).
Proof.
  pose proof (write_csv_rows (R := SampleReadability.readability))
    as (_ & _ & Hname & Hid & (_ & Hplain & Hquoted) & Hgrade & _ & _
        & Hfmt & _).
  split; [| split; [| split; [| split; [| split]]]].
  - apply (Hname (Sample.story None "headlines")). now left.
  - apply (Hid (Sample.story (Some "sourceid") "headlines")
             "s"%char "ourceid"). reflexivity.
  - apply (Hplain "headlines"). intros c Hin Hc.
    simpl in Hin. unfold csv_special in Hc.
    repeat (destruct Hin as [<- | Hin];
            [destruct Hc as [Hc | [Hc | [Hc | Hc]]]; discriminate |]).
    destruct Hin.
  - apply (Hquoted "a,b"). exists ","%char. split; [| now left].
    simpl. right. left. reflexivity.
  - apply (Hgrade quoted_story "S"%char "ample Description"); reflexivity.
  - apply Hfmt. reflexivity.
Defined.

(** ** Effects *)

Section Effects.
Context {W : Type}.

Lemma bind_ok {A B} (m : M W A) (f : A -> M W B) w a w1 t1 :
  m w = Some (Ok a, w1, t1) ->
  bind m f w = match f a w1 with
               | None => None
               | Some (r, w2, t2) => Some (r, w2, t1 ++ t2)
               end.
Proof. intros H. unfold bind. now rewrite H. Qed.

Lemma bind_raise {A B} (m : M W A) (f : A -> M W B) w e w1 t1 :
  m w = Some (Raise e, w1, t1) ->
  bind m f w = Some (Raise e, w1, t1).
Proof. intros H. unfold bind. now rewrite H. Qed.

Lemma bind_ok_inv {A B} (m : M W A) (f : A -> M W B) w b w2 t :
  bind m f w = Some (Ok b, w2, t) ->
  exists a w1 t1 t2,
    m w = Some (Ok a, w1, t1) /\ f a w1 = Some (Ok b, w2, t2) /\
    t = t1 ++ t2.
Proof.
  unfold bind. destruct (m w) as [[[[a | e] w1] t1] |]; try discriminate.
  destruct (f a w1) as [[[r w2'] t2] |] eqn:Hf; try discriminate.
  intros H. inversion H; subst. now exists a, w1, t1, t2.
Qed.

End Effects.

(** ** The job functions *)

Section JobFacts.
Context {W : Type} {E : Externals W} {R : Readability}.

Lemma fold_left_snoc {A} (l acc : list A) :
  fold_left (fun source_list source => source_list ++ [source]) l acc
  = acc ++ l.
Proof.
  revert acc. induction l as [| x l IH]; intros acc; simpl.
  - now rewrite app_nil_r.
  - now rewrite IH, <- app_assoc.
Qed.

Lemma get_sources_ok self lang (w w0 : W) sources :
  api_get_sources (api_key self) lang w = (Ok sources, w0) ->
  get_sources self lang w = Some (Ok sources, w0, [EvGetSources lang]).
Proof.
  intros H. unfold get_sources, bind, emit, call, ret. rewrite H.
  now rewrite fold_left_snoc.
Qed.

Lemma getitem_stories_by_source k stories :
  Dict.getitem k (stories_by_source stories) = stories_of k stories.
Proof.
  unfold Dict.getitem.
  rewrite stories_by_source_group_with, group_with_get.
  unfold stories_of, with_key.
  now destruct (filter _ stories).
Qed.

Lemma process_source_events tmpdir bucket ds stories source :
  [ EvOpenWrite
      (Py.os_path_join tmpdir (Py.str source ++ "_" ++ headlines_filename ds))
      (write_csv EmptyString
         (Dict.getitem source (stories_by_source stories)));
    EvUpload
      (Py.os_path_join tmpdir (Py.str source ++ "_" ++ headlines_filename ds))
      bucket (Py.str source ++ "/" ++ headlines_filename ds) ]
  = headlines_events tmpdir bucket ds stories source.
Proof. now rewrite getitem_stories_by_source. Qed.


(** One source whose file is written and whose upload fails. *)
Lemma process_source_upload_fails tmpdir bucket ds stories source
    (w w1 w2 : W) e :
  fs_open_write
    (Py.os_path_join tmpdir (Py.str source ++ "_" ++ headlines_filename ds))
    (write_csv EmptyString (Dict.getitem source (stories_by_source stories)))
    w = (Ok tt, w1) ->
  s3_upload_file
    (Py.os_path_join tmpdir (Py.str source ++ "_" ++ headlines_filename ds))
    bucket (Py.str source ++ "/" ++ headlines_filename ds) w1
    = (Raise e, w2) ->
  process_source tmpdir bucket ds (stories_by_source stories) source w
  = Some (Raise e, w2, headlines_events tmpdir bucket ds stories source).
Proof.
  intros Hw Hu. rewrite <- process_source_events.
  unfold process_source, open_write_csv, upload_news, bind, emit, call.
  now rewrite Hw, Hu.
Qed.

(** The loop stops at the first source whose processing raises. *)
Lemma for_each_stops {A} (body : A -> M W unit) pre x post :
  forall (w w1 w2 : W) evs e evs',
    for_each pre body w = Some (Ok tt, w1, evs) ->
    body x w1 = Some (Raise e, w2, evs') ->
    for_each (pre ++ x :: post) body w = Some (Raise e, w2, evs ++ evs').
Proof.
  induction pre as [| y pre IH]; intros w w1 w2 evs e evs' Hpre Hx.
  - inversion Hpre; subst. simpl. now rewrite (bind_raise _ _ _ _ _ _ Hx).
  - simpl in Hpre.
    apply bind_ok_inv in Hpre as ([] & wy & t1 & t2 & Hy & Hrest & ->).
    simpl. rewrite (bind_ok _ _ _ _ _ _ Hy).
    rewrite (IH _ _ _ _ _ _ Hrest Hx). now rewrite app_assoc.
Qed.

End JobFacts.

(** C2, as stated, fails: the headlines are one story of the source foo
    and one of the source bar, and the upload of foo's file fails.  The
    exception ends the job: the trace ends with the upload of foo's
    file, bar's file is neither written nor uploaded. *)
Lemma generate_headlines_skips_later_sources :
  generate_headlines (E := Scripted.externals)
    (R := SampleReadability.readability)
    3 "/tmp" "bucket" "dummykey" "2020-01-01" Sample.upload_fails
  = Some (Raise (OtherException "S3UploadFailedError"),
          Scripted.mkWorld ["foo"; "bar"] []
            ["foo/2020-01-01_top_headlines.csv"]
            [("/tmp/foo_2020-01-01_top_headlines.csv",
              write_csv (R := SampleReadability.readability) EmptyString
                [Sample.first_story])]
            [],
          [EvGetSources (Some "en");
           EvSearch true (page_request 100 Sample.kw_foo_bar 1);
           EvSearch true (page_request 100 Sample.kw_foo_bar 2);
           EvYield Sample.first_story;
           EvYield Sample.second_story;
           EvOpenWrite "/tmp/foo_2020-01-01_top_headlines.csv"
             (write_csv (R := SampleReadability.readability) EmptyString
                [Sample.first_story]);
           EvUpload "/tmp/foo_2020-01-01_top_headlines.csv" "bucket"
             "foo/2020-01-01_top_headlines.csv"]).
Proof. reflexivity. Qed.

(** C2, amended: in [generate_headlines], when the upload of one
    source's CSV file fails, the exception escapes the per-source loop:
    the job run ends with that exception right after the failed upload,
    and the sources after it are not attempted. *)
Theorem generate_headlines_fails_fast
    {W : Type} {E : Externals W} {R : Readability}
    (fuel : nat) (tmpdir bucket apikey ds : string)
    (w w0 w1 w2 w3 w4 : W) (listed : list string) (stories : list Article)
    (evs evs_pre : list event) (pre post : list Py.ostr) (source : Py.ostr)
    (e : exn) :
  api_get_sources apikey (Some "en") w = (Ok listed, w0) ->
  iterate fuel fuel (top_stories (mkClient apikey) listed (Some "en")) w0
    = Some (Ok stories, w1, evs) ->
  Dict.keys (stories_by_source stories) = pre ++ source :: post ->
  for_each pre (process_source tmpdir bucket ds (stories_by_source stories))
    w1 = Some (Ok tt, w2, evs_pre) ->
  fs_open_write
    (Py.os_path_join tmpdir
       (Py.str source ++ "_" ++ ds ++ "_top_headlines.csv"))
    (write_csv EmptyString (stories_of source stories)) w2 = (Ok tt, w3) ->
  s3_upload_file
    (Py.os_path_join tmpdir
       (Py.str source ++ "_" ++ ds ++ "_top_headlines.csv"))
    bucket (Py.str source ++ "/" ++ ds ++ "_top_headlines.csv") w3
    = (Raise e, w4) ->
  generate_headlines fuel tmpdir bucket apikey ds w
  = Some (Raise e, w4,
          EvGetSources (Some "en")
            :: evs ++ evs_pre
                 ++ headlines_events tmpdir bucket ds stories source).
Proof.
  intros Hsrc Hiter Hkeys Hpre Hw Hu.
  rewrite <- (getitem_stories_by_source source stories) in Hw.
  pose proof (process_source_upload_fails tmpdir bucket ds stories source
                w2 w3 w4 e Hw Hu) as Hfail.
  unfold generate_headlines.
  rewrite (bind_ok _ _ _ _ _ _ (get_sources_ok (mkClient apikey) _ _ _ _ Hsrc)).
  rewrite (bind_ok _ _ _ _ _ _ Hiter), Hkeys.
  now rewrite (for_each_stops _ _ _ _ _ _ _ _ _ _ Hpre Hfail).
Qed.

Lemma generate_headlines_fails_fast_sample :
  generate_headlines (E := Scripted.externals)
    (R := SampleReadability.readability)
    3 "/tmp" "bucket" "dummykey" "2020-01-01" Sample.upload_fails
  = Some (Raise (OtherException "S3UploadFailedError"),
          Scripted.mkWorld ["foo"; "bar"] []
            ["foo/2020-01-01_top_headlines.csv"]
            [("/tmp/foo_2020-01-01_top_headlines.csv",
              write_csv (R := SampleReadability.readability) EmptyString
                (stories_of (Some "foo")
                   [Sample.first_story; Sample.second_story]))]
            [],
          EvGetSources (Some "en")
            :: (requested (page_request 100 Sample.kw_foo_bar) true 1 2
                  ++ map EvYield [Sample.first_story; Sample.second_story])
            ++ []
            ++ headlines_events (R := SampleReadability.readability)
                 "/tmp" "bucket" "2020-01-01"
                 [Sample.first_story; Sample.second_story] (Some "foo")).
Proof.
  eapply (generate_headlines_fails_fast (E := Scripted.externals)
           (R := SampleReadability.readability)
           3 "/tmp" "bucket" "dummykey" "2020-01-01"
           Sample.upload_fails Sample.upload_fails
           (Scripted.mkWorld ["foo"; "bar"] []
              ["foo/2020-01-01_top_headlines.csv"] [] [])
           (Scripted.mkWorld ["foo"; "bar"] []
              ["foo/2020-01-01_top_headlines.csv"] [] [])
           _ _ ["foo"; "bar"] [Sample.first_story; Sample.second_story]
           _ [] [] [Some "bar"] (Some "foo")
           (OtherException "S3UploadFailedError"));
    reflexivity.
Defined.

Lemma open_write_upload_ok {W : Type} {E : Externals W} {R : Readability}
    (filepath bucket key : string) (stories : list Article) (w : W) :
  always_stores W ->
  exists w',
    (open_write_csv filepath stories ;;; upload_news filepath bucket key) w
    = Some (Ok tt, w',
            [EvOpenWrite filepath (write_csv EmptyString stories);
             EvUpload filepath bucket key]).
Proof.
  intros [Hfs Hs3].
  unfold open_write_csv, upload_news, bind, emit, call.
  pose proof (Hfs filepath (write_csv EmptyString stories) w) as H1.
  destruct (fs_open_write filepath (write_csv EmptyString stories) w)
    as [r1 w1].
  simpl in H1. subst r1.
  pose proof (Hs3 filepath bucket key w1) as H2.
  destruct (s3_upload_file filepath bucket key w1) as [r2 w2].
  simpl in H2. subst r2. now exists w2.
Qed.







(** * Further theorems *)

(** ** What a run of the paged search can have been *)

Section PagedInversion.
Context {W : Type}.
Variable search_method : Request -> W -> result (list Article) * W.
Variable top : bool.
Variable request : nat -> Request.

Lemma requested_cons first n :
  requested request top first (S n)
  = EvSearch top (request first) :: requested request top (S first) n.
Proof. reflexivity. Qed.

(** A loop that ends without an exception has walked through pages the
    remote served and was stopped by the request after them. *)
Lemma paged_loop_ok_inv fuel :
  forall articles cp (w w' : W) l evs,
    paged_loop fuel search_method top request articles cp w
      = Some (Ok l, w', evs) ->
    exists pages w1 log,
      serves search_method request w cp pages w1 /\
      stops_after search_method request w1 (cp + List.length pages) w' log /\
      l = articles ++ List.concat pages /\
      evs = requested request top cp (S (List.length pages)) ++ log.
Proof.
  induction fuel as [| fuel IH]; intros articles cp w w' l evs H;
    [discriminate |].
  cbn [paged_loop] in H.
  destruct (search_method (request cp) w) as [[page | e] w1] eqn:Hcall.
  - destruct page as [| a page]; cbn [List.length Nat.eqb negb] in H.
    + inversion H; subst. exists [], w, [].
      cbn [List.length List.concat serves]. rewrite Nat.add_0_r, app_nil_r.
      repeat split. left. split; [assumption | reflexivity].
    + destruct (paged_loop fuel _ _ _ _ _ _) as [[[r w2] evs'] |] eqn:Hrec;
        [| discriminate].
      inversion H; subst.
      apply IH in Hrec as (pages & w1' & log & Hs & Hstop & Hl & Hevs).
      exists ((a :: page) :: pages), w1', log.
      rewrite Nat.add_1_r in *. cbn [List.length List.concat serves].
      split; [| split; [| split]].
      * split; [discriminate |]. exists w1. split; assumption.
      * now rewrite Nat.add_succ_r.
      * now rewrite Hl, <- app_assoc.
      * now rewrite Hevs, (requested_cons cp).
  - exists [], w. cbn [List.length List.concat serves].
    rewrite Nat.add_0_r, app_nil_r.
    destruct e as [code | what]; [| discriminate].
    destruct (is_maximum_results (NewsAPIException code)) eqn:Hmax;
      [| discriminate].
    inversion H; subst. exists [warning_maximum].
    repeat split. right. exists (NewsAPIException code).
    repeat split; assumption.
Qed.

(** A loop that ends with an exception has walked through pages the
    remote served and met that exception, other than the maximum-results
    condition, at the request after them. *)
Lemma paged_loop_raise_inv fuel :
  forall articles cp (w w' : W) e evs,
    paged_loop fuel search_method top request articles cp w
      = Some (Raise e, w', evs) ->
    exists pages w1,
      serves search_method request w cp pages w1 /\
      search_method (request (cp + List.length pages)) w1 = (Raise e, w') /\
      is_maximum_results e = false /\
      evs = requested request top cp (S (List.length pages)).
Proof.
  induction fuel as [| fuel IH]; intros articles cp w w' e evs H;
    [discriminate |].
  cbn [paged_loop] in H.
  destruct (search_method (request cp) w) as [[page | e0] w1] eqn:Hcall.
  - destruct page as [| a page]; cbn [List.length Nat.eqb negb] in H;
      [discriminate |].
    destruct (paged_loop fuel _ _ _ _ _ _) as [[[r w2] evs'] |] eqn:Hrec;
      [| discriminate].
    inversion H; subst.
    apply IH in Hrec as (pages & w1' & Hs & Hlast & Hmax & Hevs).
    exists ((a :: page) :: pages), w1'.
    rewrite Nat.add_1_r in *. cbn [List.length serves].
    split; [| split; [| split]].
    + split; [discriminate |]. exists w1. split; assumption.
    + now rewrite Nat.add_succ_r.
    + assumption.
    + now rewrite Hevs, (requested_cons cp).
  - exists [], w. cbn [List.length serves]. rewrite Nat.add_0_r.
    destruct e0 as [code | what].
    + destruct (is_maximum_results (NewsAPIException code)) eqn:Hmax;
        [discriminate |].
      inversion H; subst. repeat split; assumption.
    + inversion H; subst. repeat split; assumption.
Qed.

(** A remote that always has another non-empty page keeps the loop
    going. *)
Lemma paged_loop_endless fuel :
  (forall req (w : W), exists page w',
     search_method req w = (Ok page, w') /\ page <> []) ->
  forall articles cp w,
    paged_loop fuel search_method top request articles cp w = None.
Proof.
  intros Hmore. induction fuel as [| fuel IH]; intros articles cp w;
    [reflexivity |].
  cbn [paged_loop].
  destruct (Hmore (request cp) w) as (page & w' & Hcall & Hne).
  rewrite Hcall. destruct page as [| a page]; [congruence |].
  cbn [List.length Nat.eqb negb]. now rewrite IH.
Qed.

End PagedInversion.

Section IterateInversion.
Context {W : Type} {E : Externals W}.

Lemma iterate_suspended_inv rest :
  forall polls fuel (w w' : W) r evs,
    iterate polls fuel (GenSuspended rest) w = Some (r, w', evs) ->
    r = Ok rest /\ w' = w /\ evs = map EvYield rest.
Proof.
  induction rest as [| a rest IH]; intros [| polls] fuel w w' r evs H;
    try discriminate; cbn [iterate gen_next resume] in H.
  - inversion H; subst. repeat split.
  - destruct (iterate polls fuel (GenSuspended rest) w)
      as [[[r1 w1] evs1] |] eqn:Hrec; [| discriminate].
    apply IH in Hrec as (-> & -> & ->).
    inversion H; subst. repeat split.
Qed.

Lemma iterate_created_inv self page_size top kw polls fuel (w w' : W) r evs :
  iterate polls fuel (GenCreated self page_size top kw) w
    = Some (r, w', evs) ->
  (exists l evs0,
     paged_loop fuel (search_method_of self top) top
       (page_request page_size kw) [] 1 w = Some (Ok l, w', evs0) /\
     r = Ok l /\ evs = evs0 ++ map EvYield l) \/
  (exists e,
     paged_loop fuel (search_method_of self top) top
       (page_request page_size kw) [] 1 w = Some (Raise e, w', evs) /\
     r = Raise e).
Proof.
  destruct polls as [| polls]; [discriminate |].
  cbn [iterate gen_next]. intros H.
  destruct (paged_loop fuel _ _ _ _ _ _) as [[[[l | e] w1] evs0] |] eqn:Hloop;
    [| | discriminate].
  - left. destruct l as [| a rest]; cbn [resume] in H.
    + inversion H; subst. exists [], evs. rewrite app_nil_r. repeat split.
    + destruct (iterate polls fuel (GenSuspended rest) w1)
        as [[[r1 w2] evs1] |] eqn:Hrec; [| discriminate].
      apply iterate_suspended_inv in Hrec as (-> & -> & ->).
      inversion H; subst. exists (a :: rest), evs0.
      rewrite <- app_assoc. repeat split.
  - right. inversion H; subst. exists e. split; reflexivity.
Qed.

End IterateInversion.

(** Whatever the remote does, the articles a paged search yields are
    the pages the remote served for the requests 1, 2, ..., in the order
    returned, up to the request that stopped the loop (an empty page or
    the maximum-results condition); the trace is these requests, the
    warning if any, then the articles. *)
Theorem paged_search_yields_served {W : Type} {E : Externals W}
    (self : NewsApiClient) (page_size : nat) (top : bool) (kw : kwargs)
    (polls fuel : nat) (w w' : W) (l : list Article) (evs : list event) :
  iterate polls fuel (_paged_search self (Some page_size) (Some top) kw) w
    = Some (Ok l, w', evs) ->
  exists pages w1 log,
    serves (search_method_of self top) (page_request page_size kw)
      w 1 pages w1 /\
    stops_after (search_method_of self top) (page_request page_size kw)
      w1 (S (List.length pages)) w' log /\
    l = List.concat pages /\
    evs = (requested (page_request page_size kw) top 1
             (S (List.length pages)) ++ log) ++ map EvYield l.
Proof.
  intros H. apply iterate_created_inv in H
    as [(l0 & evs0 & Hloop & Heq & ->) | (e & _ & Heq)]; [| discriminate].
  inversion Heq; subst l0.
  apply paged_loop_ok_inv in Hloop as (pages & w1 & log & Hs & Hstop & -> & ->).
  exists pages, w1, log. repeat split; assumption.
Qed.

Lemma paged_search_yields_served_sample :
  exists pages w1 log,
    serves (search_method_of (E := Scripted.externals) Sample.client true)
      (page_request 100 Sample.kw_en) Sample.capped 1 pages w1 /\
    stops_after (search_method_of (E := Scripted.externals) Sample.client true)
      (page_request 100 Sample.kw_en) w1 (S (List.length pages))
      (Scripted.init [] [] []) log /\
    [Sample.first_story] = List.concat pages /\
    (requested (page_request 100 Sample.kw_en) true 1 2 ++ [warning_maximum])
      ++ map EvYield [Sample.first_story]
    = (requested (page_request 100 Sample.kw_en) true 1
         (S (List.length pages)) ++ log)
        ++ map EvYield [Sample.first_story].
Proof.
  apply (paged_search_yields_served (E := Scripted.externals)
           Sample.client 100 true Sample.kw_en 2 2 Sample.capped).
  reflexivity.
Defined.

(** An exception a paged search raises was raised by the remote and is
    not the maximum-results condition; the pages served before it are
    requested and their articles are never yielded. *)
Theorem paged_search_raises_remote_error {W : Type} {E : Externals W}
    (self : NewsApiClient) (page_size : nat) (top : bool) (kw : kwargs)
    (polls fuel : nat) (w w' : W) (e : exn) (evs : list event) :
  iterate polls fuel (_paged_search self (Some page_size) (Some top) kw) w
    = Some (Raise e, w', evs) ->
  is_maximum_results e = false /\
  exists pages w1,
    serves (search_method_of self top) (page_request page_size kw)
      w 1 pages w1 /\
    search_method_of self top
      (page_request page_size kw (S (List.length pages))) w1
      = (Raise e, w') /\
    evs = requested (page_request page_size kw) top 1
            (S (List.length pages)).
Proof.
  intros H. apply iterate_created_inv in H
    as [(l0 & evs0 & _ & Heq & _) | (e0 & Hloop & Heq)]; [discriminate |].
  inversion Heq; subst e0.
  apply paged_loop_raise_inv in Hloop as (pages & w1 & Hs & Hlast & Hmax & ->).
  split; [assumption |]. exists pages, w1. repeat split; assumption.
Qed.

Lemma paged_search_raises_remote_error_sample :
  is_maximum_results (NewsAPIException "dummycode") = false /\
  exists pages w1,
    serves (search_method_of (E := Scripted.externals) Sample.client true)
      (page_request 100 Sample.kw_en) Sample.failing 1 pages w1 /\
    search_method_of (E := Scripted.externals) Sample.client true
      (page_request 100 Sample.kw_en (S (List.length pages))) w1
      = (Raise (NewsAPIException "dummycode"), Scripted.init [] [] []) /\
    requested (page_request 100 Sample.kw_en) true 1 2
    = requested (page_request 100 Sample.kw_en) true 1
        (S (List.length pages)).
Proof.
  apply (paged_search_raises_remote_error (E := Scripted.externals)
           Sample.client 100 true Sample.kw_en 1 2 Sample.failing).
  reflexivity.
Defined.

(** The paged search has no limit of its own on the number of pages:
    against a remote that answers every request with a non-empty page,
    no number of iterations of its loop is enough, and no poll
    returns. *)
Theorem paged_search_unbounded {W : Type} {E : Externals W}
    (self : NewsApiClient) (page_size : nat) (top : bool) (kw : kwargs) :
  (forall req (w : W), exists page w',
     search_method_of self top req w = (Ok page, w') /\ page <> []) ->
  forall polls fuel w,
    gen_next fuel (_paged_search self (Some page_size) (Some top) kw) w = None
    /\
    iterate polls fuel (_paged_search self (Some page_size) (Some top) kw) w
    = None.
Proof.
  intros Hmore polls fuel w.
  pose proof (paged_loop_endless _ top (page_request page_size kw) fuel
                Hmore [] 1 w) as Hloop.
  split.
  - cbn [_paged_search gen_next]. now rewrite Hloop.
  - destruct polls as [| polls]; [reflexivity |].
    cbn [_paged_search iterate gen_next]. now rewrite Hloop.
Qed.

Lemma paged_search_unbounded_sample :
  gen_next (E := Endless.externals) 1000
    (_paged_search Sample.client (Some 100) (Some true) Sample.kw_en) tt
  = None /\
  iterate (E := Endless.externals) 1000 1000
    (_paged_search Sample.client (Some 100) (Some true) Sample.kw_en) tt
  = None.
Proof.
  apply (paged_search_unbounded (E := Endless.externals)
           Sample.client 100 true Sample.kw_en).
  intros req w. exists [Sample.first_story], w.
  split; [reflexivity | discriminate].
Defined.

(** A generator is single-pass: a poll never leaves it as it was
    created; once a poll has stopped or raised, the generator is
    finished, and every later poll stops at once, sends no request and
    leaves the world as it is.  The articles fetched before an exception
    are lost. *)
Theorem generator_single_pass {W : Type} {E : Externals W}
    (fuel : nat) (g g' : generator) (w w' : W) (p : polled)
    (evs : list event) :
  gen_next fuel g w = Some (p, g', w', evs) ->
  (forall self page_size top kw, g' <> GenCreated self page_size top kw) /\
  ((forall article, p <> Yielded article) ->
   g' = GenFinished /\
   forall fuel' (w'' : W),
     gen_next fuel' g' w'' = Some (StopIteration, GenFinished, w'', [])).
Proof.
  intros H.
  assert (Hres : forall articles (w0 : W) evs0,
            resume articles w0 evs0 = (p, g', w', evs) ->
            (forall self page_size top kw,
               g' <> GenCreated self page_size top kw) /\
            ((forall article, p <> Yielded article) -> g' = GenFinished)).
  { intros [| a rest] w0 evs0 Hr; cbn [resume] in Hr; inversion Hr; subst.
    - split; [discriminate | reflexivity].
    - split; [discriminate |]. intros Hp. now destruct (Hp a). }
  assert (Hmain :
            (forall self page_size top kw,
               g' <> GenCreated self page_size top kw) /\
            ((forall article, p <> Yielded article) -> g' = GenFinished)).
  { destruct g as [self page_size top kw | rest |]; cbn [gen_next] in H.
    - destruct (paged_loop fuel _ _ _ _ _ _) as [[[[l | e] w1] evs0] |];
        [| | discriminate].
      + inversion H as [Hr]. now apply (Hres l w1 evs0).
      + inversion H; subst. split; [discriminate | reflexivity].
    - inversion H as [Hr]. now apply (Hres rest w []).
    - inversion H; subst. split; [discriminate | reflexivity]. }
  destruct Hmain as [Hnew Hfin]. split; [exact Hnew |].
  intros Hp. rewrite (Hfin Hp). split; reflexivity.
Qed.

Lemma generator_single_pass_sample :
  gen_next (E := Scripted.externals) 5 GenFinished Sample.two_pages
  = Some (StopIteration, GenFinished, Sample.two_pages, []).
Proof.
  destruct (generator_single_pass (E := Scripted.externals) 2
              (_paged_search Sample.client (Some 100) (Some true)
                 Sample.kw_en)
              GenFinished Sample.failing (Scripted.init [] [] [])
              (Raised (NewsAPIException "dummycode"))
              (requested (page_request 100 Sample.kw_en) true 1 2)
              eq_refl) as [_ Hfin].
  apply Hfin. intros article. discriminate.
Defined.

(** ** Written rows can be told apart *)

Section CsvRows.
Import CsvLayout.

Lemma breaks_special c t :
  breaks (String c t) = true ->
  Csv.special c = true /\ c <> Csv.quotechar.
Proof.
  unfold breaks, Csv.special.
  destruct (Ascii.eqb_spec c Csv.delimiter) as [-> | _];
    [split; [reflexivity | discriminate] |].
  destruct (Ascii.eqb_spec c "013"%char) as [-> | _];
    [split; [reflexivity | discriminate] | discriminate].
Qed.

Lemma breaks_lineterminator : breaks Csv.lineterminator = true.
Proof. reflexivity. Qed.

Lemma plain_prefix a :
  forall b t1 t2,
    Csv.needs_quotes a = false -> Csv.needs_quotes b = false ->
    breaks t1 = true -> breaks t2 = true ->
    (a ++ t1 = b ++ t2)%string -> a = b /\ t1 = t2.
Proof.
  induction a as [| c a IH]; intros [| d b] t1 t2 Ha Hb H1 H2 H;
    simpl in *.
  - now split.
  - subst t1. apply breaks_special in H1 as [Hs _].
    rewrite Hs in Hb. discriminate.
  - subst t2. apply breaks_special in H2 as [Hs _].
    rewrite Hs in Ha. discriminate.
  - injection H as -> H. apply orb_false_elim in Ha as [_ Ha].
    apply orb_false_elim in Hb as [_ Hb].
    destruct (IH b t1 t2 Ha Hb H1 H2 H) as [-> ->]. now split.
Qed.

Lemma double_quotes_prefix a :
  forall b t1 t2,
    breaks t1 = true -> breaks t2 = true ->
    (Csv.double_quotes a ++ String Csv.quotechar t1
     = Csv.double_quotes b ++ String Csv.quotechar t2)%string ->
    a = b /\ t1 = t2.
Proof.
  induction a as [| c a IH]; intros [| d b] t1 t2 H1 H2 H;
    cbn [Csv.double_quotes String.append] in H.
  - injection H as ->. now split.
  - destruct (Ascii.eqb_spec d Csv.quotechar) as [-> | Hd];
      cbn [String.append] in H.
    + injection H as ->. apply breaks_special in H1 as [_ Hq]. congruence.
    + injection H as Hq _. congruence.
  - destruct (Ascii.eqb_spec c Csv.quotechar) as [-> | Hc];
      cbn [String.append] in H.
    + injection H as <-. apply breaks_special in H2 as [_ Hq]. congruence.
    + injection H as Hq _. congruence.
  - destruct (Ascii.eqb_spec c Csv.quotechar) as [-> | Hc];
      destruct (Ascii.eqb_spec d Csv.quotechar) as [-> | Hd];
      cbn [String.append] in H.
    + injection H as H. destruct (IH b t1 t2 H1 H2 H) as [-> ->].
      now split.
    + injection H as Hq _. congruence.
    + injection H as Hq _. congruence.
    + injection H as -> H. destruct (IH b t1 t2 H1 H2 H) as [-> ->].
      now split.
Qed.

Lemma quoted_not_plain a b t1 t2 :
  Csv.needs_quotes b = false -> breaks t2 = true ->
  (quoted a ++ t1 = b ++ t2)%string -> False.
Proof.
  intros Hb H2 H. unfold quoted in H. destruct b as [| d b]; simpl in *.
  - subst t2. apply breaks_special in H2 as [_ Hq]. congruence.
  - injection H as <- _. discriminate.
Qed.

Lemma render_item_prefix i j t1 t2 :
  valid i -> valid j -> breaks t1 = true -> breaks t2 = true ->
  (render_item i ++ t1 = render_item j ++ t2)%string ->
  i = j /\ t1 = t2.
Proof.
  destruct i as [[] a], j as [[] b]; unfold valid, render_item; simpl;
    intros Hi Hj H1 H2 H.
  - unfold quoted in H. simpl in H. injection H as H.
    rewrite !append_assoc in H. simpl in H.
    destruct (double_quotes_prefix a b t1 t2 H1 H2 H) as [-> ->].
    now split.
  - exfalso. apply (quoted_not_plain a b t1 t2 (Hj eq_refl) H2 H).
  - exfalso. apply (quoted_not_plain b a t2 t1 (Hi eq_refl) H1).
    now symmetry.
  - destruct (plain_prefix a b t1 t2 (Hi eq_refl) (Hj eq_refl) H1 H2 H)
      as [-> ->].
    now split.
Qed.

Lemma render_inj l1 :
  forall l2,
    l1 <> [] -> l2 <> [] -> Forall valid l1 -> Forall valid l2 ->
    render l1 = render l2 -> l1 = l2.
Proof.
  induction l1 as [| i l1 IH]; intros [| j l2] N1 N2 V1 V2 H;
    try congruence.
  inversion V1 as [| ? ? Vi V1']; inversion V2 as [| ? ? Vj V2']; subst.
  destruct l1 as [| i' l1], l2 as [| j' l2]; cbn [render] in H.
  - apply render_item_prefix in H as [-> _];
      auto using breaks_lineterminator.
  - apply render_item_prefix in H as [_ H];
      auto using breaks_lineterminator. discriminate.
  - apply render_item_prefix in H as [_ H];
      auto using breaks_lineterminator. discriminate.
  - apply render_item_prefix in H as [-> H]; auto.
    injection H as H. f_equal. apply IH; auto; discriminate.
Qed.

Lemma item_of_valid v : valid (item_of v).
Proof. unfold valid, item_of. simpl. auto. Qed.

Lemma render_item_of v : render_item (item_of v) = Csv.field v.
Proof.
  unfold render_item, item_of, Csv.field, quoted, csv_content. simpl.
  destruct v as [s |]; now destruct (Csv.needs_quotes _).
Qed.

Lemma concat_fields_render v row :
  (String.concat "," (map Csv.field (v :: row)) ++ Csv.lineterminator)%string
  = render (map item_of (v :: row)).
Proof.
  revert v. induction row as [| v' row IH]; intros v.
  - cbn [map String.concat render]. now rewrite render_item_of.
  - change (map Csv.field (v :: v' :: row))
      with (Csv.field v :: map Csv.field (v' :: row)).
    change (map item_of (v :: v' :: row))
      with (item_of v :: map item_of (v' :: row)).
    cbn [String.concat render].
    rewrite <- IH, render_item_of.
    cbn [map]. now rewrite !append_assoc.
Qed.

Lemma writerow_render row : Csv.writerow row = render (items row).
Proof.
  destruct row as [| v [| v' row]].
  - reflexivity.
  - unfold Csv.writerow, items. cbn [map String.concat].
    change (String Csv.delimiter EmptyString) with ",".
    destruct (Csv.field v) eqn:Hf; [reflexivity |].
    cbn [render]. now rewrite render_item_of, Hf.
  - unfold Csv.writerow, items.
    change (String Csv.delimiter EmptyString) with ",".
    rewrite <- concat_fields_render.
    destruct (String.concat "," (map Csv.field (v :: v' :: row))) eqn:Hrec;
      [| reflexivity].
    exfalso. revert Hrec. cbn [map String.concat].
    apply append_not_empty. discriminate.
Qed.

Lemma items_valid row : Forall valid (items row) /\ items row <> [].
Proof.
  destruct row as [| v [| v' row]]; unfold items.
  - split; [| discriminate]. constructor; [| constructor].
    intros _. reflexivity.
  - destruct (Csv.field v); (split; [| discriminate]);
      constructor; try constructor; try apply item_of_valid.
  - split; [| discriminate].
    apply Forall_forall. intros i Hi. apply in_map_iff in Hi as (x & <- & _).
    apply item_of_valid.
Qed.

Lemma field_empty v : Csv.field v = EmptyString -> csv_content v = EmptyString.
Proof.
  unfold Csv.field, csv_content. destruct v as [s |]; [| reflexivity].
  destruct (Csv.needs_quotes s); [discriminate | auto].
Qed.

Lemma item_of_not_quoted_empty v : item_of v <> (true, EmptyString).
Proof.
  unfold item_of. intros H. injection H as Hq Hc.
  rewrite Hc in Hq. discriminate.
Qed.

Lemma item_of_plain_empty v :
  item_of v = (false, EmptyString) -> Csv.field v = EmptyString.
Proof.
  unfold item_of. intros H. injection H as Hq Hc.
  unfold Csv.field. fold (csv_content v). now rewrite Hq.
Qed.

Lemma item_of_contents r1 :
  forall r2, map item_of r1 = map item_of r2 ->
             map csv_content r1 = map csv_content r2.
Proof.
  induction r1 as [| x r1 IH]; intros [| y r2] H; try discriminate;
    [reflexivity |].
  cbn [map] in *.
  assert (Hc : csv_content x = csv_content y).
  { apply (f_equal (fun l => match l with
                             | i :: _ => snd i
                             | [] => EmptyString
                             end)) in H. exact H. }
  assert (Ht : map item_of r1 = map item_of r2).
  { apply (f_equal (@tl item)) in H. exact H. }
  now rewrite Hc, (IH r2 Ht).
Qed.

Lemma items_one v :
  (Csv.field v = EmptyString /\ items [v] = [(true, EmptyString)]) \/
  (Csv.field v <> EmptyString /\ items [v] = [item_of v]).
Proof.
  unfold items. destruct (Csv.field v); [left | right]; split;
    try reflexivity; discriminate.
Qed.

Lemma single_inj {A} (a b : A) : [a] = [b] -> a = b.
Proof. intros H. now apply (f_equal (hd a)) in H. Qed.

Lemma items_contents row1 row2 :
  items row1 = items row2 -> map csv_content row1 = map csv_content row2.
Proof.
  destruct row1 as [| v1 [| v1' r1]], row2 as [| v2 [| v2' r2]].
  - reflexivity.
  - destruct (items_one v2) as [[_ ->] | [Hne ->]]; cbn [items]; intros H;
      [discriminate |].
    apply single_inj in H. symmetry in H. apply item_of_plain_empty in H.
    contradiction.
  - discriminate.
  - destruct (items_one v1) as [[_ ->] | [Hne ->]]; cbn [items]; intros H;
      [discriminate |].
    apply single_inj in H. apply item_of_plain_empty in H. contradiction.
  - destruct (items_one v1) as [[H1 ->] | [H1 ->]],
             (items_one v2) as [[H2 ->] | [H2 ->]]; intros H.
    + cbn [map]. now rewrite (field_empty _ H1), (field_empty _ H2).
    + apply single_inj in H. symmetry in H.
      now apply item_of_not_quoted_empty in H.
    + apply single_inj in H. now apply item_of_not_quoted_empty in H.
    + now apply item_of_contents.
  - destruct (items_one v1) as [[_ ->] | [_ ->]]; discriminate.
  - discriminate.
  - destruct (items_one v2) as [[_ ->] | [_ ->]]; discriminate.
  - apply item_of_contents.
Qed.

End CsvRows.

Lemma field_of_content v : Csv.field v = Csv.field (Some (csv_content v)).
Proof. now destruct v. Qed.

Lemma writerow_of_contents row :
  Csv.writerow row = Csv.writerow (map Some (map csv_content row)).
Proof.
  unfold Csv.writerow.
  assert (Hf : map Csv.field (map Some (map csv_content row))
               = map Csv.field row).
  { rewrite !map_map. apply map_ext. intros v. symmetry.
    apply field_of_content. }
  rewrite Hf. now destruct row.
Qed.

(** Two rows are written alike exactly when they have the same number of
    fields with the same texts, a null field counting as the empty
    text: commas, quotes and line ends inside a field never make two
    different rows look the same. *)
Theorem csv_row_unambiguous (row1 row2 : list Py.ostr) :
  Csv.writerow row1 = Csv.writerow row2 <->
  map csv_content row1 = map csv_content row2.
Proof.
  split.
  - rewrite !writerow_render. intros H. apply items_contents.
    destruct (items_valid row1) as [V1 N1], (items_valid row2) as [V2 N2].
    now apply render_inj.
  - intros H.
    now rewrite (writerow_of_contents row1), (writerow_of_contents row2), H.
Qed.

Lemma csv_row_unambiguous_sample :
  Csv.writerow [None; Some "a,b"] = Csv.writerow [Some EmptyString; Some "a,b"]
  /\ (Csv.writerow [Some "a"; Some "b"] = Csv.writerow [Some "a,b"] -> False).
Proof.
  split.
  - apply (csv_row_unambiguous [None; Some "a,b"]
             [Some EmptyString; Some "a,b"]). reflexivity.
  - intros H.
    apply (csv_row_unambiguous [Some "a"; Some "b"] [Some "a,b"]) in H.
    discriminate.
Defined.

(** ** Writing in parts *)

Lemma lines_app (l1 l2 : list string) :
  lines (l1 ++ l2) = (lines l1 ++ lines l2)%string.
Proof.
  induction l1 as [| x l1 IH]; simpl; [reflexivity |].
  now rewrite IH, append_assoc.
Qed.

(** Writing a list of stories in two parts gives the same text as
    writing it at once: the CSV of a concatenation is the concatenation
    of the CSVs. *)
Theorem write_csv_app {R : Readability} (fh : string)
    (stories1 stories2 : list Article) :
  write_csv fh (stories1 ++ stories2)
    = write_csv (write_csv fh stories1) stories2 /\
  write_csv fh (stories1 ++ stories2)
    = (write_csv fh stories1 ++ write_csv EmptyString stories2)%string.
Proof.
  assert (H1 : write_csv fh (stories1 ++ stories2)
               = write_csv (write_csv fh stories1) stories2).
  { unfold write_csv. now rewrite fold_left_app. }
  split; [exact H1 |].
  unfold write_csv. rewrite !fold_left_append, map_app, lines_app.
  cbn [String.append]. now rewrite append_assoc.
Qed.

(** ** The files of the headlines *)

Lemma getitem_keys_values {V : Type} (d : Dict.t V) :
  NoDup (Dict.keys d) ->
  map (fun k => Dict.getitem k d) (Dict.keys d) = Dict.values d.
Proof.
  unfold Dict.keys, Dict.values.
  induction d as [| [k vs] d IH]; intros Hnd; [reflexivity |].
  inversion Hnd as [| ? ? Hnotin Hnd']; subst.
  cbn [map fst snd]. f_equal.
  - unfold Dict.getitem. simpl. now rewrite ostr_eqb_refl.
  - rewrite <- (IH Hnd'). apply map_ext_in. intros k' Hin.
    unfold Dict.getitem. simpl.
    destruct (ostr_eqb_spec k' k) as [-> | _]; [| reflexivity].
    contradiction.
Qed.

Lemma stories_by_source_keys_NoDup stories :
  NoDup (Dict.keys (stories_by_source stories)).
Proof.
  rewrite stories_by_source_group_with, group_with_keys.
  apply first_occurrences_NoDup.
Qed.

(** The loop of [generate_headlines] looks every group up by its key:
    the lists it reads are the groups, in key order; none of them is
    empty, so no empty file is written; and the rows of all the files
    together are the rows of all the stories, each once. *)
Theorem headlines_files_partition {R : Readability}
    (stories : list Article) :
  map (fun source => Dict.getitem source (stories_by_source stories))
    (Dict.keys (stories_by_source stories))
    = Dict.values (stories_by_source stories) /\
  (forall source, In source (Dict.keys (stories_by_source stories)) ->
     Dict.getitem source (stories_by_source stories) <> []) /\
  Permutation
    (flat_map
       (fun source =>
          map csv_row (Dict.getitem source (stories_by_source stories)))
       (Dict.keys (stories_by_source stories)))
    (map csv_row stories).
Proof.
  pose proof (getitem_keys_values _ (stories_by_source_keys_NoDup stories))
    as Hval.
  split; [exact Hval | split].
  - intros k Hin. rewrite getitem_stories_by_source.
    rewrite stories_by_source_group_with, group_with_keys in Hin.
    apply first_occurrences_In, in_map_iff in Hin as (s & Hk & Hs).
    intros Hnil.
    assert (Hin : In s (stories_of k stories)).
    { apply filter_In. split; [assumption |]. rewrite Hk.
      apply ostr_eqb_refl. }
    rewrite Hnil in Hin. destruct Hin.
  - rewrite flat_map_concat_map, <- (map_map _ (map csv_row)), Hval.
    rewrite <- concat_map. apply Permutation_map.
    rewrite stories_by_source_group_with. apply group_with_perm.
Qed.

Lemma headlines_files_partition_sample :
  Dict.getitem (Some "foo")
    (stories_by_source [Sample.first_story; Sample.second_story]) <> [].
Proof.
  destruct (headlines_files_partition (R := SampleReadability.readability)
              [Sample.first_story; Sample.second_story]) as (_ & Hne & _).
  apply Hne. simpl. left. reflexivity.
Defined.

(** In the file of a source, the source column of every row is the key
    of the file when that key is a non-empty id; in the file of the
    stories without an id it is each story's source name. *)
Theorem headlines_file_source_column (stories : list Article)
    (key : Py.ostr) (story : Article) :
  In story (Dict.getitem key (stories_by_source stories)) ->
  csv_source_id story
  = if Py.truthy key then key else name (source story).
Proof.
  rewrite getitem_stories_by_source. intros Hin.
  apply filter_In in Hin as [_ Hk].
  destruct (ostr_eqb_spec (id (source story)) key) as [<- |];
    [| discriminate].
  apply csv_source_id_identifier.
Qed.

Lemma headlines_file_source_column_sample :
  csv_source_id Sample.story_without_id = Some "sourcename".
Proof.
  apply (headlines_file_source_column
           [Sample.first_story; Sample.story_without_id] None
           Sample.story_without_id).
  simpl. left. reflexivity.
Defined.

(** ** Names of the files of the headlines *)

Lemma append_length (a b : string) :
  String.length (a ++ b) = String.length a + String.length b.
Proof. induction a as [| c a IH]; simpl; [reflexivity | now rewrite IH]. Qed.

Lemma append_same_length a :
  forall b c d,
    String.length a = String.length b ->
    (a ++ c = b ++ d)%string -> a = b.
Proof.
  induction a as [| x a IH]; intros [| y b] c d Hlen H; simpl in *;
    try discriminate; [reflexivity |].
  injection H as -> H. f_equal. apply (IH b c d); [lia | assumption].
Qed.

Lemma append_cancel_r (a b c : string) :
  (a ++ c = b ++ c)%string -> a = b.
Proof.
  intros H. apply (append_same_length a b c c); [| assumption].
  apply (f_equal String.length) in H. rewrite !append_length in H. lia.
Qed.

Lemma str_collides (k1 k2 : Py.ostr) :
  Py.str k1 = Py.str k2 <->
  k1 = k2 \/ (k1 = None /\ k2 = Some "None") \/
  (k1 = Some "None" /\ k2 = None).
Proof.
  split.
  - destruct k1 as [s1 |], k2 as [s2 |]; simpl; intros H.
    + left. now subst.
    + right. right. now subst.
    + right. left. now subst.
    + now left.
  - intros [-> | [[-> ->] | [-> ->]]]; reflexivity.
Qed.

Lemma append_cancel_l (p a b : string) :
  (p ++ a = p ++ b)%string -> a = b.
Proof.
  induction p as [| c p IH]; simpl; intros H; [assumption |].
  injection H as H. now apply IH.
Qed.

Lemma headlines_name_relative (key : Py.ostr) (rest : string) :
  Py.startswith (Py.str key) "/" = false ->
  Py.startswith (Py.str key ++ "_" ++ rest) "/" = false.
Proof. destruct (Py.str key); simpl; [reflexivity | auto]. Qed.

Lemma os_path_join_relative_inj (tmpdir a b : string) :
  Py.startswith a "/" = false -> Py.startswith b "/" = false ->
  Py.os_path_join tmpdir a = Py.os_path_join tmpdir b -> a = b.
Proof.
  unfold Py.os_path_join. intros -> ->.
  destruct (String.eqb tmpdir EmptyString || Py.endswith tmpdir "/")%bool;
    intros H.
  - now apply append_cancel_l in H.
  - apply append_cancel_l in H. now apply (append_cancel_l "/") in H.
Qed.

(** Two sources get the same object key exactly when their ids are
    equal or one id is null and the other is the text None.  The same
    holds of the paths of their files when neither id starts with a
    slash; an id that starts with a slash can name the file of another
    source, as the ids x and /tmp/x do in the working directory /tmp. *)
Theorem headlines_names_clash (tmpdir ds : string) (k1 k2 : Py.ostr) :
  ((Py.str k1 ++ "/" ++ headlines_filename ds)%string
   = (Py.str k2 ++ "/" ++ headlines_filename ds)%string <->
   k1 = k2 \/ (k1 = None /\ k2 = Some "None") \/
   (k1 = Some "None" /\ k2 = None)) /\
  (Py.startswith (Py.str k1) "/" = false ->
   Py.startswith (Py.str k2) "/" = false ->
   (Py.os_path_join tmpdir (Py.str k1 ++ "_" ++ headlines_filename ds)
    = Py.os_path_join tmpdir (Py.str k2 ++ "_" ++ headlines_filename ds) <->
    k1 = k2 \/ (k1 = None /\ k2 = Some "None") \/
    (k1 = Some "None" /\ k2 = None))) /\
  Py.os_path_join "/tmp" (Py.str (Some "x") ++ "_" ++ headlines_filename ds)
  = Py.os_path_join "/tmp"
      (Py.str (Some "/tmp/x") ++ "_" ++ headlines_filename ds).
Proof.
  split; [| split].
  - rewrite <- str_collides. split; [apply append_cancel_r |].
    intros H. now rewrite H.
  - intros H1 H2. rewrite <- str_collides. split.
    + intros H. apply os_path_join_relative_inj in H;
        try now apply headlines_name_relative.
      now apply append_cancel_r in H.
    + intros H. now rewrite H.
  - reflexivity.
Qed.

Lemma headlines_names_clash_sample :
  Py.os_path_join "/tmp"
    (Py.str (Some "foo") ++ "_" ++ headlines_filename "2020-01-01")
  = Py.os_path_join "/tmp"
      (Py.str (Some "bar") ++ "_" ++ headlines_filename "2020-01-01") <->
  Some "foo" = Some "bar" \/ (Some "foo" = None /\ Some "bar" = Some "None") \/
  (Some "foo" = Some "None" /\ Some "bar" = None).
Proof.
  destruct (headlines_names_clash "/tmp" "2020-01-01" (Some "foo")
              (Some "bar")) as (_ & Hpath & _).
  apply Hpath; reflexivity.
Defined.

(** ** Failures and empty inputs of the job functions *)

Section JobErrors.
Context {W : Type} {E : Externals W} {R : Readability}.

Lemma process_source_write_fails tmpdir bucket ds stories key
    (w w1 : W) e :
  fs_open_write
    (Py.os_path_join tmpdir (Py.str key ++ "_" ++ headlines_filename ds))
    (write_csv EmptyString (Dict.getitem key (stories_by_source stories)))
    w = (Raise e, w1) ->
  process_source tmpdir bucket ds (stories_by_source stories) key w
  = Some (Raise e, w1,
          [EvOpenWrite
             (Py.os_path_join tmpdir
                (Py.str key ++ "_" ++ headlines_filename ds))
             (write_csv EmptyString (stories_of key stories))]).
Proof.
  intros Hw. rewrite <- getitem_stories_by_source.
  unfold process_source, open_write_csv, upload_news, bind, emit, call.
  now rewrite Hw.
Qed.

(** The searches of the terms [pre] found [founds]; the loop goes on
    with the terms [post] from there. *)
Lemma search_terms_finds fuel client pre :
  forall (w w1 : W) founds evs1 post acc,
    finds fuel client pre w founds w1 evs1 ->
    search_terms fuel client (pre ++ post) acc w
    = match search_terms fuel client post (acc ++ List.concat founds) w1 with
      | None => None
      | Some (r, w2, evs2) => Some (r, w2, evs1 ++ evs2)
      end.
Proof.
  induction pre as [| term pre IH];
    intros w w1 [| found founds] evs1 post acc H;
    cbn [finds] in H; try contradiction.
  - destruct H as [-> ->]. cbn [List.concat app]. rewrite app_nil_r.
    destruct (search_terms fuel client post acc w) as [[[r w2] evs2] |];
      reflexivity.
  - destruct H as (w0 & e1 & e2 & Hit & Hrest & ->).
    cbn [app search_terms]. rewrite (bind_ok _ _ _ _ _ _ Hit).
    rewrite (IH _ _ _ _ post (acc ++ found) Hrest).
    cbn [List.concat]. rewrite <- !app_assoc.
    destruct (search_terms fuel client post _ w1) as [[[r w2] evs2] |];
      [| reflexivity].
    now rewrite <- app_assoc.
Qed.

End JobErrors.

(** When listing the sources fails, [generate_headlines] fails with that
    exception at once: no search request is sent, nothing is written or
    uploaded. *)
Theorem generate_headlines_sources_failure
    {W : Type} {E : Externals W} {R : Readability}
    (fuel : nat) (tmpdir bucket apikey ds : string) (w w1 : W) (e : exn) :
  api_get_sources apikey (Some "en") w = (Raise e, w1) ->
  generate_headlines fuel tmpdir bucket apikey ds w
  = Some (Raise e, w1, [EvGetSources (Some "en")]).
Proof.
  intros H. unfold generate_headlines, get_sources, bind, emit, call.
  cbn [api_key]. now rewrite H.
Qed.

Lemma generate_headlines_sources_failure_sample :
  generate_headlines (E := Broken.no_sources)
    (R := SampleReadability.readability)
    3 "/tmp" "bucket" "dummykey" "2020-01-01" Sample.two_pages
  = Some (Raise (NewsAPIException "apiKeyInvalid"), Sample.two_pages,
          [EvGetSources (Some "en")]).
Proof.
  apply (generate_headlines_sources_failure (E := Broken.no_sources)).
  reflexivity.
Defined.

(** When a request for the headlines fails, on whichever page,
    [generate_headlines] fails with that exception: the stories of the
    pages served before are dropped, nothing is written or uploaded. *)
Theorem generate_headlines_fetch_failure
    {W : Type} {E : Externals W} {R : Readability}
    (fuel : nat) (tmpdir bucket apikey ds : string) (w w0 w1 w2 : W)
    (listed : list string) (pages : list (list Article)) (e : exn) :
  api_get_sources apikey (Some "en") w = (Ok listed, w0) ->
  serves (api_get_top_headlines apikey)
    (page_request 100 (mkKwargs (Some "en") None (Some listed)))
    w0 1 pages w1 ->
  api_get_top_headlines apikey
    (page_request 100 (mkKwargs (Some "en") None (Some listed))
       (S (List.length pages))) w1 = (Raise e, w2) ->
  is_maximum_results e = false ->
  List.length pages < fuel ->
  generate_headlines fuel tmpdir bucket apikey ds w
  = Some (Raise e, w2,
          EvGetSources (Some "en")
            :: requested
                 (page_request 100 (mkKwargs (Some "en") None (Some listed)))
                 true 1 (S (List.length pages))).
Proof.
  intros Hsrc Hs Hlast Hmax Hfuel.
  pose proof (paged_loop_failed _ true _ _ _ w2 _ Hs fuel e Hlast Hmax Hfuel)
    as Hloop.
  assert (Hit : iterate fuel fuel
                  (top_stories (mkClient apikey) listed (Some "en")) w0
                = Some (Raise e, w2,
                        requested
                          (page_request 100
                             (mkKwargs (Some "en") None (Some listed)))
                          true 1 (S (List.length pages)))).
  { apply iterate_created_raise; [exact Hloop | lia]. }
  unfold generate_headlines.
  rewrite (bind_ok _ _ _ _ _ _
             (get_sources_ok (mkClient apikey) _ _ _ _ Hsrc)).
  now rewrite (bind_raise _ _ _ _ _ _ Hit).
Qed.

Lemma generate_headlines_fetch_failure_sample :
  generate_headlines (E := Scripted.externals)
    (R := SampleReadability.readability)
    3 "/tmp" "bucket" "dummykey" "2020-01-01" Sample.failing
  = Some (Raise (NewsAPIException "dummycode"), Scripted.init [] [] [],
          EvGetSources (Some "en")
            :: requested (page_request 100 Sample.kw_en) true 1 2).
Proof.
  apply (generate_headlines_fetch_failure (E := Scripted.externals)
           (R := SampleReadability.readability)
           3 "/tmp" "bucket" "dummykey" "2020-01-01"
           Sample.failing Sample.failing
           (Scripted.init [] [Raise (NewsAPIException "dummycode")] [])
           (Scripted.init [] [] []) [] [[Sample.first_story]]
           (NewsAPIException "dummycode")).
  - reflexivity.
  - simpl. split; [discriminate |]. eexists. split; reflexivity.
  - reflexivity.
  - reflexivity.
  - simpl; lia.
Defined.

(** When the file of a source cannot be written, [generate_headlines]
    fails with that exception: the file is not uploaded and the later
    sources are not attempted. *)
Theorem generate_headlines_write_failure
    {W : Type} {E : Externals W} {R : Readability}
    (fuel : nat) (tmpdir bucket apikey ds : string)
    (w w0 w1 w2 w3 : W) (listed : list string) (stories : list Article)
    (evs evs_pre : list event) (pre post : list Py.ostr) (key : Py.ostr)
    (e : exn) :
  api_get_sources apikey (Some "en") w = (Ok listed, w0) ->
  iterate fuel fuel (top_stories (mkClient apikey) listed (Some "en")) w0
    = Some (Ok stories, w1, evs) ->
  Dict.keys (stories_by_source stories) = pre ++ key :: post ->
  for_each pre (process_source tmpdir bucket ds (stories_by_source stories))
    w1 = Some (Ok tt, w2, evs_pre) ->
  fs_open_write
    (Py.os_path_join tmpdir (Py.str key ++ "_" ++ ds ++ "_top_headlines.csv"))
    (write_csv EmptyString (stories_of key stories)) w2 = (Raise e, w3) ->
  generate_headlines fuel tmpdir bucket apikey ds w
  = Some (Raise e, w3,
          EvGetSources (Some "en")
            :: evs ++ evs_pre
                 ++ [EvOpenWrite
                       (Py.os_path_join tmpdir
                          (Py.str key ++ "_" ++ ds ++ "_top_headlines.csv"))
                       (write_csv EmptyString (stories_of key stories))]).
Proof.
  intros Hsrc Hiter Hkeys Hpre Hw.
  rewrite <- (getitem_stories_by_source key stories) in Hw.
  pose proof (process_source_write_fails tmpdir bucket ds stories key
                w2 w3 e Hw) as Hfail.
  unfold generate_headlines.
  rewrite (bind_ok _ _ _ _ _ _
             (get_sources_ok (mkClient apikey) _ _ _ _ Hsrc)).
  rewrite (bind_ok _ _ _ _ _ _ Hiter), Hkeys.
  now rewrite (for_each_stops _ _ _ _ _ _ _ _ _ _ Hpre Hfail).
Qed.

Lemma generate_headlines_write_failure_sample :
  generate_headlines (E := Broken.read_only)
    (R := SampleReadability.readability)
    3 "/tmp" "bucket" "dummykey" "2020-01-01" Sample.two_pages
  = Some (Raise (OtherException "OSError"), Scripted.init [] [] [],
          EvGetSources (Some "en")
            :: (requested (page_request 100 Sample.kw_en) true 1 3
                  ++ map EvYield [Sample.first_story; Sample.second_story])
            ++ []
            ++ [EvOpenWrite "/tmp/foo_2020-01-01_top_headlines.csv"
                  (write_csv (R := SampleReadability.readability) EmptyString
                     (stories_of (Some "foo")
                        [Sample.first_story; Sample.second_story]))]).
Proof.
  eapply (generate_headlines_write_failure (E := Broken.read_only)
            (R := SampleReadability.readability)
            3 "/tmp" "bucket" "dummykey" "2020-01-01"
            Sample.two_pages Sample.two_pages
            (Scripted.init [] [] []) (Scripted.init [] [] [])
            (Scripted.init [] [] []) []
            [Sample.first_story; Sample.second_story]
            _ [] [] [Some "bar"] (Some "foo")
            (OtherException "OSError"));
    reflexivity.
Defined.

(** When there are no headlines (the first request returns an empty
    page or raises the maximum-results condition), [generate_headlines]
    succeeds after that one request and writes and uploads nothing. *)
Theorem generate_headlines_no_stories
    {W : Type} {E : Externals W} {R : Readability}
    (fuel : nat) (tmpdir bucket apikey ds : string) (w w0 w1 : W)
    (listed : list string) (log : list event) :
  api_get_sources apikey (Some "en") w = (Ok listed, w0) ->
  stops_after (api_get_top_headlines apikey)
    (page_request 100 (mkKwargs (Some "en") None (Some listed))) w0 1 w1 log ->
  0 < fuel ->
  generate_headlines fuel tmpdir bucket apikey ds w
  = Some (Ok tt, w1,
          EvGetSources (Some "en")
            :: EvSearch true
                 (page_request 100 (mkKwargs (Some "en") None (Some listed)) 1)
            :: log).
Proof.
  intros Hsrc Hstop Hfuel.
  destruct fuel as [| fuel]; [lia |].
  assert (Hloop : paged_loop (S fuel) (api_get_top_headlines apikey) true
                    (page_request 100
                       (mkKwargs (Some "en") None (Some listed))) [] 1 w0
                  = Some (Ok [], w1,
                          EvSearch true
                            (page_request 100
                               (mkKwargs (Some "en") None (Some listed)) 1)
                            :: log)).
  { destruct Hstop as [[Hcall ->] | (e & Hcall & Hmax & ->)].
    - now rewrite (paged_loop_empty_page _ true _ fuel [] 1 w0 w1 Hcall).
    - now rewrite (paged_loop_maximum _ true _ fuel [] 1 w0 w1 e Hcall Hmax). }
  assert (Hit : iterate (S fuel) (S fuel)
                  (top_stories (mkClient apikey) listed (Some "en")) w0
                = Some (Ok [], w1,
                        (EvSearch true
                           (page_request 100
                              (mkKwargs (Some "en") None (Some listed)) 1)
                           :: log) ++ map EvYield [])).
  { apply iterate_created_ok; [exact Hloop | simpl; lia]. }
  unfold generate_headlines.
  rewrite (bind_ok _ _ _ _ _ _
             (get_sources_ok (mkClient apikey) _ _ _ _ Hsrc)).
  rewrite (bind_ok _ _ _ _ _ _ Hit).
  cbn [stories_by_source fold_left Dict.empty Dict.keys map for_each ret].
  cbn [map app]. now rewrite !app_nil_r.
Qed.

Lemma generate_headlines_no_stories_sample :
  generate_headlines (E := Scripted.externals)
    (R := SampleReadability.readability)
    1 "/tmp" "bucket" "dummykey" "2020-01-01"
    (Scripted.init ["foo"]
       [Raise (NewsAPIException "maximumResultsReached")] [])
  = Some (Ok tt, Scripted.init ["foo"] [] [],
          [EvGetSources (Some "en");
           EvSearch true
             (page_request 100 (mkKwargs (Some "en") None (Some ["foo"])) 1);
           warning_maximum]).
Proof.
  apply (generate_headlines_no_stories (E := Scripted.externals)
           (R := SampleReadability.readability)
           1 "/tmp" "bucket" "dummykey" "2020-01-01"
           (Scripted.init ["foo"]
              [Raise (NewsAPIException "maximumResultsReached")] [])
           (Scripted.init ["foo"]
              [Raise (NewsAPIException "maximumResultsReached")] [])
           (Scripted.init ["foo"] [] []) ["foo"] [warning_maximum]).
  - reflexivity.
  - right. exists (NewsAPIException "maximumResultsReached").
    repeat split.
  - lia.
Defined.

(** With no search terms, [search_news] sends no request and still
    writes an empty combined file and uploads it. *)
Theorem search_news_no_terms
    {W : Type} {E : Externals W} {R : Readability}
    (fuel : nat) (tmpdir bucket apikey ds : string) (w w1 w2 : W)
    (r : result unit) :
  fs_open_write (Py.os_path_join tmpdir (ds ++ "_combined_search.csv"))
    EmptyString w = (Ok tt, w1) ->
  s3_upload_file (Py.os_path_join tmpdir (ds ++ "_combined_search.csv"))
    bucket (ds ++ "_combined_search.csv") w1 = (r, w2) ->
  search_news fuel tmpdir bucket [] apikey ds w
  = Some (r, w2,
          [EvOpenWrite
             (Py.os_path_join tmpdir (ds ++ "_combined_search.csv"))
             EmptyString;
           EvUpload
             (Py.os_path_join tmpdir (ds ++ "_combined_search.csv"))
             bucket (ds ++ "_combined_search.csv")]).
Proof.
  intros Hw Hu.
  unfold search_news, search_terms, open_write_csv, upload_news, bind, ret,
    emit, call, search_filename.
  cbn [write_csv fold_left]. now rewrite Hw, Hu.
Qed.

Lemma search_news_no_terms_sample :
  search_news (E := Scripted.externals) (R := SampleReadability.readability)
    3 "/tmp" "bucket" [] "dummykey" "2020-01-01" Sample.two_pages
  = Some (Ok tt,
          Scripted.mkWorld [] [Ok [Sample.first_story];
                               Ok [Sample.second_story]] []
            [("/tmp/2020-01-01_combined_search.csv", EmptyString)]
            [("/tmp/2020-01-01_combined_search.csv", "bucket",
              "2020-01-01_combined_search.csv")],
          [EvOpenWrite "/tmp/2020-01-01_combined_search.csv" EmptyString;
           EvUpload "/tmp/2020-01-01_combined_search.csv" "bucket"
             "2020-01-01_combined_search.csv"]).
Proof.
  eapply (search_news_no_terms (E := Scripted.externals)
            (R := SampleReadability.readability)
            3 "/tmp" "bucket" "dummykey" "2020-01-01" Sample.two_pages);
    reflexivity.
Defined.

(** [search_news] searches the terms one after another and keeps what
    each search finds, in the order of the terms and with repetitions:
    the combined file is the CSV of the results of all the terms,
    concatenated. *)
Theorem search_news_accumulates
    {W : Type} {E : Externals W} {R : Readability}
    (fuel : nat) (tmpdir bucket apikey ds : string) (terms : list string)
    (w w1 : W) (founds : list (list Article)) (evs : list event) :
  always_stores W ->
  finds fuel (mkClient apikey) terms w founds w1 evs ->
  search_terms fuel (mkClient apikey) terms [] w
    = Some (Ok (List.concat founds), w1, evs) /\
  exists w',
    search_news fuel tmpdir bucket terms apikey ds w
    = Some (Ok tt, w',
            evs
              ++ [ EvOpenWrite
                     (Py.os_path_join tmpdir (ds ++ "_combined_search.csv"))
                     (write_csv EmptyString (List.concat founds));
                   EvUpload
                     (Py.os_path_join tmpdir (ds ++ "_combined_search.csv"))
                     bucket (ds ++ "_combined_search.csv") ]).
Proof.
  intros Hst Hfinds.
  assert (Hterms : search_terms fuel (mkClient apikey) terms [] w
                   = Some (Ok (List.concat founds), w1, evs)).
  { pose proof (search_terms_finds fuel (mkClient apikey) terms w w1 founds
                  evs [] [] Hfinds) as H.
    rewrite app_nil_r in H. rewrite H. cbn [search_terms ret app].
    now rewrite app_nil_r. }
  split; [exact Hterms |].
  destruct (open_write_upload_ok
              (Py.os_path_join tmpdir (search_filename ds)) bucket
              (search_filename ds) (List.concat founds) w1 Hst)
    as [w' Hstore].
  exists w'. unfold search_news.
  rewrite (bind_ok _ _ _ _ _ _ Hterms). now rewrite Hstore.
Qed.

Lemma search_news_accumulates_mock :
  search_terms (E := MockApi.externals) 2 (mkClient "dummykey")
    ["cancer"; "immunotherapy"] [] 0
  = Some (Ok (List.concat [[MockApi.titled "everything"]; []]), 1,
          (requested
             (page_request 100 (mkKwargs None (Some "cancer") (Some [])))
             false 1 2
             ++ [EvYield (MockApi.titled "everything")])
            ++ requested
                 (page_request 100
                    (mkKwargs None (Some "immunotherapy") (Some [])))
                 false 1 1
            ++ []).
Proof.
  assert (Hst : always_stores (E := MockApi.externals) nat).
  { split; intros; reflexivity. }
  apply (search_news_accumulates (E := MockApi.externals)
           (R := SampleReadability.readability)
           2 "/tmp" "bucket" "dummykey" "2020-01-01"
           ["cancer"; "immunotherapy"] 0 1
           [[MockApi.titled "everything"]; []] _ Hst).
  simpl. eexists _, _, _. split; [reflexivity |]. split; [| reflexivity].
  eexists _, _, _. split; [reflexivity |]. split; [| reflexivity].
  split; reflexivity.
Defined.

(** When the search of a term fails, [search_news] fails with that
    exception: what the earlier terms found is dropped, the later terms
    are not searched, and no file is written or uploaded. *)
Theorem search_news_search_failure
    {W : Type} {E : Externals W} {R : Readability}
    (fuel : nat) (tmpdir bucket apikey ds : string)
    (pre post : list string) (term : string) (w w1 w2 : W)
    (founds : list (list Article)) (evs1 evs2 : list event) (e : exn) :
  finds fuel (mkClient apikey) pre w founds w1 evs1 ->
  iterate fuel fuel (search (mkClient apikey) term [] None) w1
    = Some (Raise e, w2, evs2) ->
  search_news fuel tmpdir bucket (pre ++ term :: post) apikey ds w
  = Some (Raise e, w2, evs1 ++ evs2).
Proof.
  intros Hfinds Hit.
  assert (Hterms : search_terms fuel (mkClient apikey) (pre ++ term :: post)
                     [] w = Some (Raise e, w2, evs1 ++ evs2)).
  { rewrite (search_terms_finds fuel (mkClient apikey) pre w w1 founds evs1
               (term :: post) [] Hfinds).
    cbn [search_terms]. now rewrite (bind_raise _ _ _ _ _ _ Hit). }
  unfold search_news. now rewrite (bind_raise _ _ _ _ _ _ Hterms).
Qed.

Lemma search_news_search_failure_sample :
  search_news (E := Scripted.externals) (R := SampleReadability.readability)
    2 "/tmp" "bucket" ([] ++ "cancer" :: ["immunotherapy"]) "dummykey"
    "2020-01-01" Sample.failing
  = Some (Raise (NewsAPIException "dummycode"), Scripted.init [] [] [],
          [] ++ requested
                  (page_request 100 (mkKwargs None (Some "cancer") (Some [])))
                  false 1 2).
Proof.
  apply (search_news_search_failure (E := Scripted.externals)
           (R := SampleReadability.readability)
           2 "/tmp" "bucket" "dummykey" "2020-01-01" [] ["immunotherapy"]
           "cancer" Sample.failing Sample.failing (Scripted.init [] [] [])
           [] [] _ (NewsAPIException "dummycode")).
  - simpl. split; reflexivity.
  - reflexivity.
Defined.

(** A source id that starts with a slash takes the file out of the
    working directory: the path written is the file name alone, whatever
    the working directory is. *)
Theorem headlines_path_of_absolute_source
    {W : Type} {E : Externals W} {R : Readability}
    (tmpdir bucket ds rest : string) (by_source : Dict.t Article) (w : W) :
  exists r w' evs,
    process_source tmpdir bucket ds by_source (Some (String "/" rest)) w
    = Some (r, w',
            EvOpenWrite
              (String "/" rest ++ "_" ++ ds ++ "_top_headlines.csv")
              (write_csv EmptyString
                 (Dict.getitem (Some (String "/" rest)) by_source))
              :: evs).
Proof.
  unfold process_source, open_write_csv, upload_news, bind, emit, call,
    headlines_filename, Py.os_path_join.
  cbn [Py.str Py.startswith String.append Ascii.eqb Bool.eqb].
  destruct (fs_open_write _ _ w) as [[[] | e] w1].
  - destruct (s3_upload_file _ _ _ w1) as [r w2].
    now exists r, w2, [EvUpload
                        (String "/" rest ++ "_" ++ ds ++ "_top_headlines.csv")
                        bucket
                        (String "/" rest ++ "/" ++ ds ++ "_top_headlines.csv")].
  - now exists (Raise e), w1, [].
Qed.
